(** * The failure gallery of the MNIST notebooks

    [show_failures] is defined, with the same body, in
    notebooks/sklearn-mnist-lc.ipynb (twice), sklearn-mnist-nn.ipynb and
    sklearn-mnist-ul.ipynb.  It compares a vector of predictions with the
    global test labels [y_test], walks the rows of the global [X_test] and
    draws the first [maxtoshow] misclassified digits that pass two optional
    filters.  The function returns nothing: what it selects is what it
    draws.  The embedding below therefore keeps the notebook globals and
    the sequence of print and pyplot calls as explicit state, and reads
    the selected failures off that sequence. *)

From Stdlib Require Import ZArith Lia.
From stdpp Require Import base list sorting.

Local Open Scope Z_scope.

(** ** Python values and effects *)

(** The exceptions that the body can run into.  The notebooks define no
    exception class of their own and contain no [raise] statement. *)
Inductive exn := ValueError | TypeError | IndexError.

Inductive outcome (A : Type) :=
| Ret (a : A)
| Raise (e : exn).
Arguments Ret {A} a.
Arguments Raise {A} e.

(** How [a != b] on two one-dimensional arrays whose shapes cannot be
    broadcast behaves: NumPy before 1.25 (the notebooks were saved from a
    Python 3.6 kernel) warns and yields the scalar [True]; NumPy from 1.25
    on raises [ValueError]. *)
Inductive numpy_era := Legacy | Strict.

(** The value of [pred != y_test]. *)
Inductive comparison :=
| Elementwise (bs : list bool)
| Scalar (b : bool).

Section Gallery.

Context {Label : Type} `{EqDecision Label}.

(** One call that the body makes on [print] or on [matplotlib.pyplot].
    The pixels of a row of [X_test] are opaque here: [Imshow i] stands for
    [plt.imshow(X_test[i,:].reshape(28, 28), cmap="gray")], and
    [Title p g] for the title "p (g)".  The calls are recorded, not
    interpreted: what pyplot does with one, such as refusing a figure of
    negative width, is outside the model, and a normal end of a call is
    stated below for a cap that is not negative only. *)
Inductive event :=
| PrintHeader (maxtoshow : Z)
| Figure (width height : Z)
| Subplot (nrows ncols index : Z)
| AxisOff
| Imshow (row : nat)
| Title (p g : Label).

(** The notebook globals the function reads, and everything printed or
    plotted so far, oldest call first.  Of [X_test] the function uses the
    number of rows and, to show a digit, the row at an index. *)
Record world := World {
  X_test_rows : nat;          (* X_test.shape[0] *)
  y_test : list Label;
  calls : list event
}.

(** State and exceptions. *)
Definition M (A : Type) : Type := world → world * outcome A.

#[global] Instance M_ret : MRet M := λ A a w, (w, Ret a).
#[global] Instance M_bind : MBind M := λ A B f c w,
  match c w with
  | (w', Ret a) => f a w'
  | (w', Raise e) => (w', Raise e)
  end.

Definition raise {A} (e : exn) : M A := λ w, (w, Raise e).
Definition lift {A} (r : outcome A) : M A := λ w, (w, r).

(** The world after some more calls; the globals stay as they are. *)
Definition after (w : world) (evs : list event) : world :=
  World (X_test_rows w) (y_test w) (calls w ++ evs).

Definition emit (ev : event) : M unit := λ w, (after w [ev], Ret tt).
Definition global_y_test : M (list Label) := λ w, (w, Ret (y_test w)).
Definition global_X_test_shape0 : M nat := λ w, (w, Ret (X_test_rows w)).

(** [a != b] on two labels. *)
Definition py_ne (a b : Label) : bool := bool_decide (a ≠ b).

(** [a != b] on two one-dimensional NumPy arrays: element by element
    when the lengths agree, an array of length one stretched to the length
    of the other (broadcasting), and otherwise as the NumPy at hand has
    it. *)
Definition array_ne (np : numpy_era) (a b : list Label) : outcome comparison :=
  if decide (length a = length b) then Ret (Elementwise (zip_with py_ne a b))
  else match a, b with
       | [x], _ => Ret (Elementwise (py_ne x <$> b))
       | _, [y] => Ret (Elementwise ((λ x, py_ne x y) <$> a))
       | _, _ => match np with
                 | Strict => Raise ValueError
                 | Legacy => Ret (Scalar true)
                 end
       end.

(** [a[i]] for [i >= 0] on a one-dimensional array. *)
Definition getitem {A} (a : list A) (i : nat) : M A :=
  match a !! i with
  | Some x => mret x
  | None => raise IndexError
  end.

(** [errors[i]]: a scalar cannot be indexed. *)
Definition errors_getitem (errors : comparison) (i : nat) : M bool :=
  match errors with
  | Elementwise bs => getitem bs i
  | Scalar _ => raise TypeError
  end.

(** [X_test[i,:]]: the row is named by its index. *)
Definition X_test_getrow (i : nat) : M nat :=
  n ← global_X_test_shape0;
  if decide (i < n)%nat then mret i else raise IndexError.

(** ** The body of [show_failures] *)

Section Body.

Variables (pred : list Label) (trueclass predictedclass : option Label).
Variable maxtoshow : Z.
Variable errors : comparison.

(** [trueclass is not None and y_test[i] != trueclass] *)
Definition trueclass_differs (i : nat) : M bool :=
  match trueclass with
  | None => mret false
  | Some t => y ← global_y_test; g ← getitem y i; mret (py_ne g t)
  end.

(** [predictedclass is not None and pred[i] != predictedclass] *)
Definition predictedclass_differs (i : nat) : M bool :=
  match predictedclass with
  | None => mret false
  | Some t => p ← getitem pred i; mret (py_ne p t)
  end.

(** The four pyplot calls that draw one digit, and [ii = ii + 1]. *)
Definition draw (i : nat) (ii : Z) : M Z :=
  emit (Subplot 1 maxtoshow (ii + 1));;
  emit AxisOff;;
  row ← X_test_getrow i;
  emit (Imshow row);;
  p ← getitem pred i;
  y ← global_y_test;
  g ← getitem y i;
  emit (Title p g);;
  mret (ii + 1).

(** One pass through the loop body below the [break] test; the value is
    the [ii] the next pass starts from. *)
Definition visit (i : nat) (ii : Z) : M Z :=
  e ← errors_getitem errors i;
  if e : bool then
    skip ← trueclass_differs i;
    if skip : bool then mret ii
    else
      skip ← predictedclass_differs i;
      if skip : bool then mret ii
      else draw i ii
  else mret ii.

(** [for i in range(...)] over the indices still to come. *)
Fixpoint for_range (indices : list nat) (ii : Z) : M Z :=
  match indices with
  | [] => mret ii
  | i :: rest =>
      if decide (maxtoshow ≤ ii) then mret ii     (* break *)
      else ii' ← visit i ii; for_range rest ii'
  end.

End Body.

Definition show_failures (np : numpy_era) (pred : list Label)
    (trueclass predictedclass : option Label) (maxtoshow : Z) : M unit :=
  y ← global_y_test;
  errors ← lift (array_ne np pred y);
  emit (PrintHeader maxtoshow);;
  let ii := 0 in
  emit (Figure maxtoshow 1);;
  n ← global_X_test_shape0;
  for_range pred trueclass predictedclass maxtoshow errors (seq 0 n) ii;;
  mret tt.

(** ** What a call has selected *)

(** A selected failure: index, predicted label, correct label. *)
Definition failure : Type := nat * Label * Label.

(** The digits drawn by a sequence of calls: an image together with the
    title put on it. *)
Fixpoint gallery (log : list event) : list failure :=
  match log with
  | [] => []
  | Imshow i :: rest =>
      match rest with
      | Title p g :: _ => [(i, p, g)]
      | _ => []
      end ++ gallery rest
  | _ :: rest => gallery rest
  end.

(** The test set as the notebooks build it: one row of [X_test] per entry
    of [y_test], nothing printed or plotted yet. *)
Definition test_set (groundTruth : list Label) : world :=
  World (length groundTruth) groundTruth [].

(** The operation of the specification read off the code: the ground
    truth is the global [y_test], and the result is the gallery drawn by
    a call that ends normally. *)
Definition findFailures (np : numpy_era) (groundTruth predictions : list Label)
    (expectedLabel predictedLabel : option Label) (maxResults : Z)
    : outcome (list failure) :=
  match show_failures np predictions expectedLabel predictedLabel maxResults
          (test_set groundTruth) with
  | (w, Ret _) => Ret (gallery (calls w))
  | (_, Raise e) => Raise e
  end.

(** The digits a call draws when it starts with nothing printed or
    plotted, whether it ends normally or raises on the way. *)
Definition drawn (np : numpy_era) (n : nat) (yt pred : list Label)
    (trueclass predictedclass : option Label) (maxtoshow : Z) : list failure :=
  gallery (calls (show_failures np pred trueclass predictedclass maxtoshow
                    (World n yt [])).1).

(** ** The reference computation of the specification *)

(** Every position of two aligned label sequences, from index [k] on, as
    (index, prediction, ground truth). *)
Fixpoint samples_from (k : nat) (predictions groundTruth : list Label)
    : list failure :=
  match predictions, groundTruth with
  | p :: ps, g :: gs => (k, p, g) :: samples_from (S k) ps gs
  | _, _ => []
  end.

Definition samples := samples_from 0.

(** An optional filter is passed when it is unset or equal to the label. *)
Definition passes (filter : option Label) (l : Label) : bool :=
  match filter with
  | None => true
  | Some t => bool_decide (l = t)
  end.

(** A failure that satisfies both optional filters. *)
Definition matching (expectedLabel predictedLabel : option Label)
    (s : failure) : bool :=
  let '(_, p, g) := s in
  py_ne p g && passes expectedLabel g && passes predictedLabel p.

(** The reference computation, in the words of the specification: filter
    the full input for failures that satisfy both optional filters, then
    take the first [maxResults] entries. *)
Definition reference (groundTruth predictions : list Label)
    (expectedLabel predictedLabel : option Label) (maxResults : Z)
    : list failure :=
  take (Z.to_nat maxResults)
    (List.filter (matching expectedLabel predictedLabel)
       (samples predictions groundTruth)).

(** The number of positions where prediction and ground truth differ. *)
Fixpoint count_failures (groundTruth predictions : list Label) : nat :=
  match predictions, groundTruth with
  | p :: ps, g :: gs =>
      ((if py_ne p g then 1 else 0) + count_failures gs ps)%nat
  | _, _ => 0%nat
  end.

(** The pyplot calls that draw the failures [fs] into the slots after
    slot [ii] of a figure with [maxtoshow] slots. *)
Fixpoint render (maxtoshow ii : Z) (fs : list failure) : list event :=
  match fs with
  | [] => []
  | (i, p, g) :: fs' =>
      [Subplot 1 maxtoshow (ii + 1); AxisOff; Imshow i; Title p g]
        ++ render maxtoshow (ii + 1) fs'
  end.

(** ** Reasoning about runs *)

(** Weakest precondition: [Q] holds of value and world when the run ends
    normally, [E] of exception and world when it raises. *)
Definition wp {A} (c : M A) (Q : A → world → Prop)
    (E : exn → world → Prop) (w : world) : Prop :=
  match c w with
  | (w', Ret a) => Q a w'
  | (w', Raise e) => E e w'
  end.

(** A computation that reads the globals but neither changes them nor
    looks at what was printed or plotted before: it only adds calls. *)
Definition framed {A} (c : M A) : Prop :=
  ∀ n y, ∃ evs r, ∀ log, c (World n y log) = (World n y (log ++ evs), r).

(** The index of a selected failure. *)
Definition index_of (s : failure) : nat := s.1.1.

(** What the loop keeps true of the digits drawn so far, once the scan
    has reached index [k]: each one sits at an index below [k], shows the
    prediction and the test label found there and is a failure that passes
    both filters; the indices increase; and the digits fit the figure. *)
Definition selected_below (pred yt : list Label)
    (trueclass predictedclass : option Label) (k : nat) (s : failure) : Prop :=
  pred !! index_of s = Some s.1.2 ∧ yt !! index_of s = Some s.2 ∧
  matching trueclass predictedclass s = true ∧ (index_of s < k)%nat.

Definition well_formed (pred yt : list Label)
    (trueclass predictedclass : option Label) (maxtoshow : Z)
    (k : nat) (fs : list failure) : Prop :=
  Forall (selected_below pred yt trueclass predictedclass k) fs ∧
  StronglySorted lt (index_of <$> fs) ∧
  Z.of_nat (length fs) ≤ Z.max 0 maxtoshow.

Definition loop_inv (pred yt : list Label)
    (trueclass predictedclass : option Label) (maxtoshow : Z)
    (k : nat) (ii : Z) (w : world) : Prop :=
  y_test w = yt ∧
  (∀ i, last (calls w) ≠ Some (Imshow i)) ∧
  well_formed pred yt trueclass predictedclass maxtoshow k (gallery (calls w)) ∧
  Z.of_nat (length (gallery (calls w))) = ii.

End Gallery.

Arguments event : clear implicits.
Arguments M : clear implicits.
Arguments world : clear implicits.
Arguments failure : clear implicits.

(** * The rest of the notebooks *)

(** ** More to read off a call of [show_failures] *)

Section Observations.

Context {Label : Type} `{EqDecision Label}.

(** The arguments of the [plt.subplot] calls among a sequence of calls,
    oldest first. *)
Definition subplots (log : list (event Label)) : list (Z * Z * Z) :=
  omap (λ ev, match ev with
               | Subplot nrows ncols index => Some (nrows, ncols, index)
               | _ => None
               end) log.

(** Slot [j + 1] of a figure of one row and [maxtoshow] columns. *)
Definition slot (maxtoshow : Z) (j : nat) : Z * Z * Z :=
  (1, maxtoshow, Z.of_nat j + 1).

(** Both optional filters, applied to a failure already found. *)
Definition passes_filters (trueclass predictedclass : option Label)
    (s : failure Label) : bool :=
  passes trueclass s.2 && passes predictedclass s.1.2.

(** A test label that differs from the one prediction [p] and passes
    the [trueclass] filter. *)
Definition offending (p : Label) (trueclass : option Label) (g : Label) : bool :=
  py_ne p g && passes trueclass g.

(** The index of the first offending label of [gs], whose first entry
    has index [k]. *)
Fixpoint first_offending (p : Label) (trueclass : option Label) (k : nat)
    (gs : list Label) : option nat :=
  match gs with
  | [] => None
  | g :: gs' =>
      if offending p trueclass g then Some k
      else first_offending p trueclass (S k) gs'
  end.

(** The slots asked for so far are the first [k] of the figure. *)
Definition slots_filled (maxtoshow : Z) (k : nat) (w : world Label) : Prop :=
  subplots (calls w) = slot maxtoshow <$> seq 0 k ∧
  Z.of_nat k ≤ Z.max 0 maxtoshow.

End Observations.

(** ** The data cell and the first call of the linear-classifier notebook *)

Section Pipeline.

Context {Row Label : Type} `{EqDecision Label}.

(** [train_len = 60000] *)
Definition train_len : nat := Z.to_nat 60000.

(** [X_train, y_train = X[:train_len], y[:train_len]] and
    [X_test, y_test = X[train_len:], y[train_len:]]: a slice of an array
    shorter than its bounds is cut, not refused. *)
Definition X_train (X : list Row) : list Row := take train_len X.
Definition y_train (y : list Label) : list Label := take train_len y.
Definition X_test (X : list Row) : list Row := drop train_len X.
Definition y_test_of (y : list Label) : list Label := drop train_len y.

(** [pred_lr = clf_lr.predict(X_test)] followed by
    [show_failures(pred_lr)], with the defaults of the three optional
    arguments; [predict] is the fitted classifier of the library. *)
Definition show_failures_of_classifier (np : numpy_era)
    (predict : list Row → list Label) (X : list Row) (y : list Label)
    : world Label * outcome unit :=
  let pred_lr := predict (X_test X) in
  show_failures np pred_lr None None 10
    (World (length (X_test X)) (y_test_of y) []).

End Pipeline.

(** ** The mosaics of the unsupervised-learning notebook *)

Section Mosaic.

Context {Pixel : Type}.

(** The value of an entry of [np.zeros]. *)
Variable zero : Pixel.

(** A two-dimensional array of pixels: its shape and its entries. *)
Record image := Image {
  height : nat;
  width : nat;
  pixel : nat → nat → Pixel
}.

(** [np.zeros((h, w))] *)
Definition zeros (h w : nat) : image := Image h w (λ _ _, zero).

(** The rows of [X] at which [mask] is true, in order. *)
Fixpoint select_rows (X : list (list Pixel)) (mask : list bool)
    : list (list Pixel) :=
  match X, mask with
  | x :: X', b :: mask' =>
      if b then x :: select_rows X' mask' else select_rows X' mask'
  | _, _ => []
  end.

(** [X[mask, :]] with a boolean mask: the mask has to be as long as [X]
    has rows. *)
Definition mask_rows (X : list (list Pixel)) (mask : list bool)
    : outcome (list (list Pixel)) :=
  if decide (length mask = length X) then Ret (select_rows X mask)
  else Raise IndexError.

(** [v.reshape(28, 28)]: entry [(r, c)] is [v[28 * r + c]]. *)
Definition reshape_28_28 (v : list Pixel) : outcome (nat → nat → Pixel) :=
  if decide (length v = 784%nat)
  then Ret (λ r c, default zero (v !! (28 * r + c)%nat))
  else Raise ValueError.

(** [img[ix:ix + 28, iy:iy + 28] = block]: a slice that the array cuts
    short cannot take a block of 28 by 28. *)
Definition assign_block (img : image) (ix iy : nat)
    (block : nat → nat → Pixel) : outcome image :=
  if decide (ix + 28 ≤ height img ∧ iy + 28 ≤ width img)%nat
  then Ret (Image (height img) (width img)
              (λ r c, if decide (ix ≤ r < ix + 28 ∧ iy ≤ c < iy + 28)%nat
                      then block (r - ix)%nat (c - iy)%nat
                      else pixel img r c))
  else Raise ValueError.

(** The [try] block: [for j in range(n_img_per_row)] over the [j] still
    to come.  An [IndexError] ends the loop and is swallowed by
    [except IndexError: pass]; any other exception goes on. *)
Fixpoint fill_row (n_img_per_row : nat) (X_cluster : list (list Pixel))
    (i ix : nat) (js : list nat) (img : image) : outcome image :=
  match js with
  | [] => Ret img
  | j :: rest =>
      let iy := (28 * j)%nat in
      match X_cluster !! (i * n_img_per_row + j)%nat with
      | None => Ret img
      | Some v =>
          match reshape_28_28 v with
          | Raise e => Raise e
          | Ret block =>
              match assign_block img ix iy block with
              | Raise e => Raise e
              | Ret img' => fill_row n_img_per_row X_cluster i ix rest img'
              end
          end
      end
  end.

(** One pass of the outer loop for the samples labelled [l]:
    [ix = 28 * i], [X_cluster = X[labels == l, :]], then the [try]
    block. *)
Definition band (n_img_per_row : nat) (X : list (list Pixel))
    (labels : list Z) (l : Z) (i : nat) (img : image) : outcome image :=
  let ix := (28 * i)%nat in
  match mask_rows X ((λ x, bool_decide (x = l)) <$> labels) with
  | Raise e => Raise e
  | Ret X_cluster =>
      fill_row n_img_per_row X_cluster i ix (seq 0 n_img_per_row) img
  end.

(** [n_img_per_row = 32] *)
Definition n_img_per_row : nat := 32.

(** [for i in range(n_clusters)], the mask being [labels_ == i]. *)
Fixpoint cluster_bands (X : list (list Pixel)) (labels_ : list Z)
    (rows : list nat) (img : image) : outcome image :=
  match rows with
  | [] => Ret img
  | i :: rest =>
      match band n_img_per_row X labels_ (Z.of_nat i) i img with
      | Raise e => Raise e
      | Ret img' => cluster_bands X labels_ rest img'
      end
  end.

(** The mosaic of the k-means and of the hierarchical clustering. *)
Definition cluster_mosaic (n_clusters : nat) (X : list (list Pixel))
    (labels_ : list Z) : outcome image :=
  cluster_bands X labels_ (seq 0 n_clusters)
    (zeros (28 * n_clusters) (28 * n_img_per_row)).

(** [anolabels = [-1, 1]] *)
Definition anolabels : list Z := [-1; 1].

(** [for i in range(2)], the mask being [predictions == anolabels[i]]. *)
Fixpoint anomaly_bands (X : list (list Pixel)) (predictions : list Z)
    (rows : list nat) (img : image) : outcome image :=
  match rows with
  | [] => Ret img
  | i :: rest =>
      match anolabels !! i with
      | None => Raise IndexError
      | Some l =>
          match band n_img_per_row X predictions l i img with
          | Raise e => Raise e
          | Ret img' => anomaly_bands X predictions rest img'
          end
      end
  end.

(** The mosaic of the two anomaly detectors. *)
Definition anomaly_mosaic (X : list (list Pixel)) (predictions : list Z)
    : outcome image :=
  anomaly_bands X predictions (seq 0 2) (zeros (28 * 2) (28 * n_img_per_row)).

(** The samples labelled [l], in the order of [X]. *)
Definition members (X : list (list Pixel)) (labels : list Z) (l : Z)
    : list (list Pixel) :=
  select_rows X ((λ x, bool_decide (x = l)) <$> labels).

(** Pixel [(r, c)] of a mosaic whose band [i] holds, tile after tile,
    the entries [i * n], [i * n + 1], ... of [band_members i], and is
    left at zero from the first entry that does not exist. *)
Definition tiled (n : nat) (band_members : nat → list (list Pixel))
    (r c : nat) : Pixel :=
  match band_members (r / 28)%nat !! (r / 28 * n + c / 28)%nat with
  | Some v => default zero (v !! (28 * (r mod 28) + c mod 28)%nat)
  | None => zero
  end.

(** [np.sum] of a boolean array: the number of [True] entries. *)
Fixpoint np_sum (bs : list bool) : nat :=
  match bs with
  | [] => 0%nat
  | b :: bs' => ((if b then 1 else 0) + np_sum bs')%nat
  end.

(** [np.sum(predictions==-1)], printed as the number of anomalies. *)
Definition number_of_anomalies (predictions : list Z) : nat :=
  np_sum ((λ x, bool_decide (x = -1)) <$> predictions).

End Mosaic.

Arguments image : clear implicits.

(** * Properties *)

Section Rules.

Context {Label : Type} `{EqDecision Label}.
Implicit Types (w : world Label) (ev : event Label) (log : list (event Label)).

Lemma wp_ret {A} (a : A) Q E w : Q a w → wp (mret a) Q E w.
Proof. done. Qed.

Lemma wp_raise {A} e (Q : A → world Label → Prop) E w :
  E e w → wp (raise e) Q E w.
Proof. done. Qed.

Lemma wp_bind {A B} (c : M Label A) (f : A → M Label B) Q E w :
  wp c (λ a, wp (f a) Q E) E w → wp (c ≫= f) Q E w.
Proof.
  unfold wp, mbind, M_bind. destruct (c w) as [w' [a|e]]; done.
Qed.

Lemma wp_mono {A} (c : M Label A) (Q Q' : A → world Label → Prop)
    (E E' : exn → world Label → Prop) w :
  wp c Q E w → (∀ a w', Q a w' → Q' a w') → (∀ e w', E e w' → E' e w') →
  wp c Q' E' w.
Proof.
  unfold wp. destruct (c w) as [w' [a|e]]; eauto.
Qed.

Lemma wp_emit ev Q E w : Q tt (after w [ev]) → wp (emit ev) Q E w.
Proof. done. Qed.

Lemma after_after w evs evs' : after (after w evs) evs' = after w (evs ++ evs').
Proof. unfold after. simpl. by rewrite app_assoc. Qed.

Lemma y_test_after w evs : y_test (after w evs) = y_test w.
Proof. done. Qed.

Lemma wp_global_y_test Q E w : Q (y_test w) w → wp global_y_test Q E w.
Proof. done. Qed.

Lemma wp_global_X_test_shape0 Q E w :
  Q (X_test_rows w) w → wp global_X_test_shape0 Q E w.
Proof. done. Qed.

Lemma wp_lift {A} (r : outcome A) (Q : A → world Label → Prop) E w :
  match r with Ret a => Q a w | Raise e => E e w end → wp (lift r) Q E w.
Proof. by destruct r. Qed.

Lemma wp_getitem {A} (a : list A) i (Q : A → world Label → Prop) E w :
  (∀ x, a !! i = Some x → Q x w) → (a !! i = None → E IndexError w) →
  wp (getitem a i) Q E w.
Proof.
  intros HQ HE. unfold wp, getitem. destruct (a !! i); [by apply HQ | by apply HE].
Qed.

Lemma wp_X_test_getrow i Q E w :
  ((i < X_test_rows w)%nat → Q i w) →
  ((X_test_rows w ≤ i)%nat → E IndexError w) →
  wp (X_test_getrow i) Q E w.
Proof.
  intros HQ HE. unfold X_test_getrow. apply wp_bind, wp_global_X_test_shape0.
  case_decide; [apply wp_ret | apply wp_raise]; auto with lia.
Qed.

End Rules.

(** ** The gallery of a growing sequence of calls *)

Section GalleryFacts.

Context {Label : Type} `{EqDecision Label}.
Implicit Types (w : world Label) (ev : event Label) (log : list (event Label)).

Lemma gallery_cons ev log :
  gallery (ev :: log) =
  match ev, log with
  | Imshow i, Title p g :: _ => [(i, p, g)]
  | _, _ => []
  end ++ gallery log.
Proof. by destruct ev. Qed.

(** One more call adds a digit exactly when it titles an image just shown. *)
Lemma gallery_snoc log ev :
  gallery (log ++ [ev]) =
  gallery log ++
    match ev with
    | Title p g =>
        match last log with
        | Some (Imshow i) => [(i, p, g)]
        | _ => []
        end
    | _ => []
    end.
Proof.
  induction log as [|a [|b log] IH].
  - by destruct ev.
  - destruct a, ev; reflexivity.
  - rewrite last_cons_cons.
    change ((a :: b :: log) ++ [ev]) with (a :: (b :: log) ++ [ev]).
    rewrite (gallery_cons a), IH, (gallery_cons a (b :: log)), app_assoc.
    done.
Qed.

Lemma gallery_render (m ii : Z) (fs : list (failure Label)) :
  gallery (render m ii fs) = fs.
Proof.
  revert ii. induction fs as [|[[i p] g] fs IH]; intros ii; [done|].
  simpl. by rewrite IH.
Qed.

End GalleryFacts.

(** One step of a weakest-precondition proof, chosen by the shape of the
    computation. *)
Ltac wp_step :=
  lazymatch goal with
  | |- wp (mret _) _ _ _ => apply wp_ret
  | |- wp (raise _) _ _ _ => apply wp_raise
  | |- wp (lift _) _ _ _ => apply wp_lift
  | |- wp (_ ≫= _) _ _ _ => apply wp_bind
  | |- wp (emit _) _ _ _ => apply wp_emit
  | |- wp global_y_test _ _ _ => apply wp_global_y_test
  | |- wp global_X_test_shape0 _ _ _ => apply wp_global_X_test_shape0
  | |- wp (getitem _ _) _ _ _ => apply wp_getitem; [intros ? ?|intros ?]
  | |- wp (X_test_getrow _) _ _ _ => apply wp_X_test_getrow; intros ?
  | |- wp (if ?b then _ else _) _ _ _ => destruct b eqn:?
  | |- wp (match ?o with _ => _ end) _ _ _ => destruct o eqn:?
  end.

(** ** The scan keeps the gallery well formed, on every input *)

Section Invariant.

Context {Label : Type} `{EqDecision Label}.
Variables (pred yt : list Label) (trueclass predictedclass : option Label).
Variable maxtoshow : Z.
Variable errors : comparison.

Hypothesis errors_sound : ∀ bs i p g,
  errors = Elementwise bs → bs !! i = Some true →
  pred !! i = Some p → yt !! i = Some g → p ≠ g.

Local Abbreviation wf := (well_formed pred yt trueclass predictedclass maxtoshow).
Local Abbreviation inv := (loop_inv pred yt trueclass predictedclass maxtoshow).

Lemma well_formed_mono k k' fs : (k ≤ k')%nat → wf k fs → wf k' fs.
Proof.
  intros Hk (Hall & Hsort & Hlen). split; [|done].
  eapply Forall_impl; [done|]. intros s (?&?&?&?).
  unfold selected_below. auto with lia.
Qed.

Lemma loop_inv_mono k k' ii w : (k ≤ k')%nat → inv k ii w → inv k' ii w.
Proof.
  intros Hk (?&?&?&?). split; [done|]. split; [done|]. split; [|done].
  by eapply well_formed_mono.
Qed.

(** Calls other than a title leave the gallery as it is. *)
Lemma well_formed_after k w evs :
  Forall (λ ev, match ev with Title _ _ => False | _ => True end) evs →
  wf k (gallery (calls w)) → wf k (gallery (calls (after w evs))).
Proof.
  intros Hevs Hwf. simpl.
  induction evs as [|ev evs IH] using rev_ind; [by rewrite app_nil_r|].
  rewrite Forall_app, Forall_singleton in Hevs. destruct Hevs as [Hevs Hev].
  rewrite app_assoc, gallery_snoc.
  destruct ev; simpl in Hev; [| | | | |done]; cbn beta iota; rewrite app_nil_r; by apply IH.
Qed.

Lemma passes_py_ne (f : option Label) (l t : Label) :
  f = Some t → py_ne l t = false → passes f l = true.
Proof.
  intros -> Hne. unfold py_ne in Hne. simpl.
  apply bool_decide_eq_true. apply bool_decide_eq_false in Hne.
  by destruct (decide (l = t)).
Qed.

(** Drawing the digit at index [k] extends a well-formed gallery. *)
Lemma loop_inv_draw k ii w p g :
  ii < maxtoshow → inv k ii w →
  pred !! k = Some p → yt !! k = Some g →
  matching trueclass predictedclass (k, p, g) = true →
  inv (S k) (ii + 1)
    (after w [Subplot 1 maxtoshow (ii + 1); AxisOff; Imshow k; Title p g]).
Proof.
  intros Hii (Hy & Hlast & (Hall & Hsort & Hlen) & Hcount) Hp Hg Hmatch.
  unfold loop_inv, well_formed. simpl.
  change (calls w ++ [Subplot 1 maxtoshow (ii + 1); AxisOff; Imshow k; Title p g])
    with (calls w ++ [Subplot 1 maxtoshow (ii + 1)] ++ [AxisOff] ++ [Imshow k]
            ++ [Title p g]).
  rewrite !app_assoc, !gallery_snoc, !last_snoc, !app_nil_r.
  split_and!.
  - done.
  - done.
  - apply Forall_app. split.
    + eapply Forall_impl; [done|]. intros s (?&?&?&?).
      unfold selected_below. split_and!; [done..|lia].
    + apply Forall_singleton. unfold selected_below, index_of. simpl.
      split_and!; [done..|lia].
  - rewrite fmap_app. apply StronglySorted_app_2.
    + intros i j [s [-> Hs]]%list_elem_of_fmap ->%list_elem_of_singleton.
      rewrite Forall_forall in Hall. by destruct (Hall s Hs) as (?&?&?&?).
    + done.
    + repeat constructor.
  - rewrite length_app. simpl. lia.
  - rewrite length_app. simpl. lia.
Qed.

Lemma matching_intro (p g : Label) k :
  p ≠ g → passes trueclass g = true → passes predictedclass p = true →
  matching trueclass predictedclass (k, p, g) = true.
Proof.
  intros Hne Hg Hp. unfold matching, py_ne.
  by rewrite bool_decide_eq_true_2, Hg, Hp.
Qed.

Lemma visit_inv k ii w :
  ii < maxtoshow → inv k ii w →
  wp (visit pred trueclass predictedclass maxtoshow errors k ii)
     (λ ii' w', inv (S k) ii' w')
     (λ _ w', ∃ k', wf k' (gallery (calls w'))) w.
Proof.
  intros Hii Hinv.
  assert (Hskip : inv (S k) ii w) by (eapply loop_inv_mono; [|done]; lia).
  assert (Hexn : ∀ evs,
    Forall (λ ev, match ev with Title _ _ => False | _ => True end) evs →
    ∃ k', wf k' (gallery (calls (after w evs)))).
  { intros evs Hevs. exists k. apply well_formed_after; [done|].
    by destruct Hinv as (?&?&?&?). }
  assert (Hnow : ∃ k', wf k' (gallery (calls w))).
  { exists k. by destruct Hinv as (?&?&?&?). }
  assert (Hy : y_test w = yt) by (by destruct Hinv).
  assert (Hdraw : ∀ p g, pred !! k = Some p → yt !! k = Some g →
    p ≠ g → passes trueclass g = true → passes predictedclass p = true →
    inv (S k) (ii + 1)
      (after w [Subplot 1 maxtoshow (ii + 1); AxisOff; Imshow k; Title p g])).
  { intros p g Hp Hg Hne Ht Hq. apply loop_inv_draw; try done.
    by apply matching_intro. }
  assert (Hsound : ∀ bs p g, errors = Elementwise bs → bs !! k = Some true →
    pred !! k = Some p → yt !! k = Some g → p ≠ g) by eauto.
  clear Hinv errors_sound.
  unfold visit, errors_getitem, trueclass_differs, predictedclass_differs, draw.
  repeat wp_step.
  all: rewrite ?after_after; cbn [app].
  all: rewrite ?y_test_after, ?Hy in *.
  all: try done.
  all: try (apply Hexn; by repeat constructor).
  all: apply Hdraw; try done; try (by eapply Hsound).
  all: simplify_eq; try (eapply passes_py_ne; by eauto).
Qed.

Lemma for_range_inv len : ∀ k ii w,
  inv k ii w →
  wp (for_range pred trueclass predictedclass maxtoshow errors (seq k len) ii)
     (λ ii' w', inv (k + len) ii' w')
     (λ _ w', ∃ k', wf k' (gallery (calls w'))) w.
Proof.
  induction len as [|len IH]; intros k ii w Hinv; simpl.
  - apply wp_ret. eapply loop_inv_mono; [|done]. lia.
  - case_decide.
    + apply wp_ret. eapply loop_inv_mono; [|done]. lia.
    + apply wp_bind. eapply wp_mono; [apply visit_inv; [lia|done]| |done].
      intros ii' w' Hinv'. simpl.
      replace (k + S len)%nat with (S k + len)%nat by lia. by apply IH.
Qed.

End Invariant.

Section EveryInput.

Context {Label : Type} `{EqDecision Label}.
Implicit Types (pred yt : list Label) (w : world Label).

(** Whatever the shapes, a [True] in [pred != y_test] at a position both
    arrays have means that the two labels there differ. *)
Lemma array_ne_sound np pred yt bs i p g :
  array_ne np pred yt = Ret (Elementwise bs) → bs !! i = Some true →
  pred !! i = Some p → yt !! i = Some g → p ≠ g.
Proof.
  unfold array_ne. case_decide as Hlen.
  - intros [= <-]. rewrite lookup_zip_with. intros Hbs Hp Hg.
    rewrite Hp, Hg in Hbs. simpl in Hbs. injection Hbs as Hbs.
    by apply bool_decide_eq_true in Hbs.
  - destruct pred as [|x [|x' pred]].
    + by destruct yt as [|y [|y' yt]], np.
    + intros [= <-]. rewrite list_lookup_fmap. intros Hbs Hp Hg.
      destruct i; [|done]. injection Hp as ->. rewrite Hg in Hbs.
      injection Hbs as Hbs. by apply bool_decide_eq_true in Hbs.
    + destruct yt as [|y [|y' yt]]; [by destruct np| |by destruct np].
      intros [= <-] Hbs Hp Hg. destruct i; [|done]. simpl in *.
      simplify_eq. by apply bool_decide_eq_true in Hbs.
Qed.

(** On every input, and whether the call ends normally or not, the
    digits drawn form a well-formed gallery. *)
Lemma show_failures_well_formed np n pred yt trueclass predictedclass maxtoshow :
  ∃ k, well_formed pred yt trueclass predictedclass maxtoshow k
         (gallery (calls
            (show_failures np pred trueclass predictedclass maxtoshow
               (World n yt [])).1)).
Proof.
  set (post := λ w, ∃ k, well_formed pred yt trueclass predictedclass
                            maxtoshow k (gallery (calls w))).
  assert (Hnil : ∀ k, well_formed pred yt trueclass predictedclass maxtoshow k []).
  { intros k. split_and!; [constructor|constructor|simpl; lia]. }
  cut (wp (show_failures np pred trueclass predictedclass maxtoshow)
          (λ _, post) (λ _, post) (World n yt [])).
  { unfold wp. by destruct (show_failures _ _ _ _ _ _) as [w' [[]|e]]. }
  unfold show_failures. apply wp_bind, wp_global_y_test, wp_bind, wp_lift.
  simpl. destruct (array_ne np pred yt) as [errors|e] eqn:Hne; [|by exists 0%nat].
  do 2 (apply wp_bind, wp_emit). apply wp_bind, wp_global_X_test_shape0.
  apply wp_bind.
  eapply wp_mono; [eapply (for_range_inv pred yt) with (k := 0%nat)|..].
  - intros bs i p g ->. by eapply array_ne_sound.
  - split_and!; [done|done|apply Hnil|done].
  - intros ii w' (_ & _ & Hwf & _). apply wp_ret. by eexists.
  - done.
Qed.

End EveryInput.

(** ** Aligned inputs: the scan computes the reference *)

Section Aligned.

Context {Label : Type} `{EqDecision Label}.
Variables (pred yt : list Label) (trueclass predictedclass : option Label).
Variable maxtoshow : Z.

Implicit Types (w : world Label) (log : list (event Label)).

Local Abbreviation errors := (Elementwise (zip_with py_ne pred yt)).

Lemma passes_negb_py_ne (f : option Label) (l : Label) :
  passes f l = negb match f with Some t => py_ne l t | None => false end.
Proof.
  destruct f as [t|]; [|done]. unfold py_ne. simpl.
  by rewrite bool_decide_not, negb_involutive.
Qed.

(** One pass over an index inside both arrays. *)
Lemma visit_aligned k ii w p g :
  pred !! k = Some p → yt !! k = Some g →
  y_test w = yt → (k < X_test_rows w)%nat →
  visit pred trueclass predictedclass maxtoshow errors k ii w =
  if matching trueclass predictedclass (k, p, g)
  then (after w [Subplot 1 maxtoshow (ii + 1); AxisOff; Imshow k; Title p g],
        Ret (ii + 1))
  else (w, Ret ii).
Proof.
  intros Hp Hg Hy Hk. destruct w as [n y log]. simpl in *. subst y.
  unfold matching. rewrite !passes_negb_py_ne.
  unfold visit, errors_getitem, trueclass_differs, predictedclass_differs, draw,
    X_test_getrow, getitem, global_y_test, global_X_test_shape0, emit, after,
    mbind, M_bind, mret, M_ret.
  rewrite lookup_zip_with, Hp, Hg. simpl.
  destruct (py_ne p g); simpl; [|done].
  assert (Hdraw : ∀ log',
    (if decide (k < n)%nat then λ w0 : world Label, (w0, Ret k)
     else raise IndexError) (World n yt log') = (World n yt log', Ret k)).
  { intros log'. by rewrite decide_True. }
  destruct trueclass as [t|]; simpl; rewrite ?Hg; simpl;
    [destruct (py_ne g t); simpl; [done|]|];
    (destruct predictedclass as [t'|]; simpl; rewrite ?Hp; simpl;
     [destruct (py_ne p t'); simpl; [done|]|]);
    rewrite Hdraw; simpl; rewrite ?Hp, ?Hg; simpl; by rewrite <- !app_assoc.
Qed.

Lemma after_nil w : after w [] = w.
Proof. destruct w. unfold after. simpl. by rewrite app_nil_r. Qed.

(** The loop over the indices of the suffixes [ps] and [gs] draws the
    matching failures among them, as far as the figure has room. *)
Lemma for_range_aligned ps : ∀ gs P0 G0 ii w,
  pred = P0 ++ ps → yt = G0 ++ gs →
  length P0 = length G0 → length ps = length gs →
  y_test w = yt → X_test_rows w = length yt →
  let fs := take (Z.to_nat (maxtoshow - ii))
              (List.filter (matching trueclass predictedclass)
                 (samples_from (length P0) ps gs)) in
  for_range pred trueclass predictedclass maxtoshow errors
    (seq (length P0) (length ps)) ii w
  = (after w (render maxtoshow ii fs), Ret (ii + Z.of_nat (length fs))).
Proof.
  induction ps as [|p ps IH]; intros gs P0 G0 ii w HP HG Hlen0 Hlen Hy Hn.
  - destruct gs; [|done]. simpl. rewrite take_nil, after_nil. simpl.
    by rewrite Z.add_0_r.
  - destruct gs as [|g gs]; [done|]. injection Hlen as Hlen.
    cbn [length seq for_range samples_from List.filter].
    case_decide as Hbreak.
    { replace (Z.to_nat (maxtoshow - ii)) with 0%nat by lia.
      simpl. by rewrite after_nil, Z.add_0_r. }
    assert (Hp : pred !! length P0 = Some p).
    { rewrite HP. by apply list_lookup_middle. }
    assert (Hg : yt !! length P0 = Some g).
    { rewrite HG. by apply list_lookup_middle. }
    assert (Hk : (length P0 < X_test_rows w)%nat).
    { rewrite Hn, HG, length_app. simpl. lia. }
    unfold mbind, M_bind at 1.
    rewrite (visit_aligned (length P0) ii w p g Hp Hg Hy Hk).
    specialize (IH gs (P0 ++ [p]) (G0 ++ [g])).
    rewrite length_app, Nat.add_1_r in IH. simpl in IH.
    destruct (matching trueclass predictedclass (length P0, p, g)).
    + rewrite IH; [|by rewrite <- ?app_assoc
                    |by rewrite <- ?app_assoc
                    |rewrite !length_app; simpl; lia|done..].
      replace (Z.to_nat (maxtoshow - ii))
        with (S (Z.to_nat (maxtoshow - (ii + 1)))) by lia.
      cbn [take length render]. rewrite after_after. do 2 f_equal. lia.
    + rewrite IH; [done|by rewrite <- ?app_assoc|by rewrite <- ?app_assoc
                    |rewrite !length_app; simpl; lia|done..].
Qed.

(** A call on aligned inputs ends normally, having printed the header,
    opened the figure and drawn the reference selection. *)
Lemma show_failures_aligned np log :
  length pred = length yt →
  show_failures np pred trueclass predictedclass maxtoshow
    (World (length yt) yt log)
  = (World (length yt) yt
       (log ++ PrintHeader maxtoshow :: Figure maxtoshow 1
            :: render maxtoshow 0
                 (reference yt pred trueclass predictedclass maxtoshow)),
     Ret tt).
Proof.
  intros Hlen. unfold show_failures, array_ne.
  unfold mbind at 1 2, M_bind at 1 2, global_y_test, lift. simpl.
  rewrite decide_True by done.
  unfold mbind at 1 2 3 4, M_bind at 1 2 3 4, emit, after, global_X_test_shape0.
  simpl.
  pose proof (for_range_aligned pred yt [] [] 0
    (World (length yt) yt ((log ++ [PrintHeader maxtoshow]) ++ [Figure maxtoshow 1])))
    as Hloop.
  simpl in Hloop. rewrite Hlen in Hloop. rewrite Hloop by done.
  unfold reference, samples, after. rewrite Z.sub_0_r. simpl.
  by rewrite <- !app_assoc.
Qed.

End Aligned.

(** ** The reference selection *)

Section Reference.

Context {Label : Type} `{EqDecision Label}.
Implicit Types (P G : list Label) (s : failure Label).

(** Without filters, the matching failures are counted by
    [count_failures]. *)
Lemma length_filter_samples_from P : ∀ G k,
  length (List.filter (matching None None) (samples_from k P G))
  = count_failures G P.
Proof.
  induction P as [|p P IH]; intros [|g G] k; simpl; try done.
  rewrite andb_true_r, andb_true_r.
  destruct (py_ne p g); simpl; by rewrite IH.
Qed.

(** No position matches: the filter leaves nothing. *)
Lemma filter_samples_from_nil e q P : ∀ G k,
  (∀ j p g, P !! j = Some p → G !! j = Some g → p ≠ g →
            passes e g && passes q p = false) →
  List.filter (matching e q) (samples_from k P G) = [].
Proof.
  induction P as [|p P IH]; intros [|g G] k Hnone; simpl; try done.
  rewrite IH; [|intros j; apply (Hnone (S j))].
  unfold py_ne. destruct (decide (p = g)) as [->|Hne].
  - by rewrite bool_decide_eq_false_2 by auto.
  - rewrite bool_decide_eq_true_2 by done. simpl.
    by rewrite (Hnone 0%nat p g).
Qed.

End Reference.

(** ** What a call on aligned inputs returns *)

Section Returned.

Context {Label : Type} `{EqDecision Label}.
Implicit Types (P G : list Label).

Lemma findFailures_aligned np G P e q (m : Z) :
  length G = length P →
  findFailures np G P e q m = Ret (reference G P e q m).
Proof.
  intros Hlen. unfold findFailures, test_set.
  rewrite show_failures_aligned by done. simpl.
  by rewrite gallery_render.
Qed.

Lemma drawn_aligned np G P e q (m : Z) :
  length G = length P →
  drawn np (length G) G P e q m = reference G P e q m.
Proof.
  intros Hlen. unfold drawn.
  rewrite show_failures_aligned by done. simpl.
  by rewrite gallery_render.
Qed.

End Returned.

(** ** Every call only adds print and pyplot calls *)

Section Framed.

Context {Label : Type} `{EqDecision Label}.
Implicit Types (w : world Label) (ev : event Label).

Lemma framed_ret {A} (a : A) : framed (Label := Label) (mret a).
Proof. intros n y. exists [], (Ret a). intros log. by rewrite app_nil_r. Qed.

Lemma framed_raise {A} e : framed (Label := Label) (raise (A := A) e).
Proof. intros n y. exists [], (Raise e). intros log. by rewrite app_nil_r. Qed.

Lemma framed_lift {A} (r : outcome A) : framed (Label := Label) (lift r).
Proof. intros n y. exists [], r. intros log. by rewrite app_nil_r. Qed.

Lemma framed_emit ev : framed (emit ev).
Proof. intros n y. by exists [ev], (Ret tt). Qed.

Lemma framed_global_y_test : framed (global_y_test (Label := Label)).
Proof. intros n y. exists [], (Ret y). intros log. by rewrite app_nil_r. Qed.

Lemma framed_global_X_test_shape0 :
  framed (global_X_test_shape0 (Label := Label)).
Proof. intros n y. exists [], (Ret n). intros log. by rewrite app_nil_r. Qed.

Lemma framed_bind {A B} (c : M Label A) (f : A → M Label B) :
  framed c → (∀ a, framed (f a)) → framed (c ≫= f).
Proof.
  intros Hc Hf n y. destruct (Hc n y) as (evs & [a|e] & Hrun).
  - destruct (Hf a n y) as (evs' & r & Hrun').
    exists (evs ++ evs'), r. intros log.
    unfold mbind, M_bind. by rewrite Hrun, Hrun', app_assoc.
  - exists evs, (Raise e). intros log.
    unfold mbind, M_bind. by rewrite Hrun.
Qed.

Lemma framed_getitem {A} (a : list A) i : framed (Label := Label) (getitem a i).
Proof. unfold getitem. destruct (a !! i); [apply framed_ret|apply framed_raise]. Qed.

Lemma framed_X_test_getrow i : framed (X_test_getrow (Label := Label) i).
Proof.
  apply framed_bind; [apply framed_global_X_test_shape0|].
  intros n. case_decide; [apply framed_ret|apply framed_raise].
Qed.

End Framed.

Create HintDb framed.

#[local] Hint Resolve framed_ret framed_raise framed_lift framed_emit
  framed_global_y_test framed_global_X_test_shape0 framed_getitem
  framed_X_test_getrow : framed.


Section FramedCall.

Context {Label : Type} `{EqDecision Label}.
Variables (pred : list Label) (trueclass predictedclass : option Label).
Variable maxtoshow : Z.




End FramedCall.

(** ** Inputs outside the contract of the specification *)

Section Misuse.

Context {Label : Type} `{EqDecision Label}.
Implicit Types (P G : list Label) (w : world Label).

(** Two lengths that differ, neither of them one, cannot be broadcast. *)
Lemma array_ne_incompatible np (a b : list Label) :
  length a ≠ length b → length a ≠ 1%nat → length b ≠ 1%nat →
  array_ne np a b
  = match np with Strict => Raise ValueError | Legacy => Ret (Scalar true) end.
Proof.
  intros Hne Ha Hb. unfold array_ne. rewrite decide_False by done.
  by destruct a as [|x [|x' a]], b as [|y [|y' b]].
Qed.

(** With a scalar for [errors] the first index examined raises. *)
Lemma for_range_scalar pred e q (m : Z) b indices ii w :
  for_range pred e q m (Scalar b) indices ii w
  = match indices with
    | [] => (w, Ret ii)
    | _ :: _ => if decide (m ≤ ii) then (w, Ret ii) else (w, Raise TypeError)
    end.
Proof. destruct indices; simpl; [done|]. by case_decide. Qed.

Lemma reference_no_room G P e q (m : Z) : m ≤ 0 → reference G P e q m = [].
Proof. intros Hm. unfold reference. by replace (Z.to_nat m) with 0%nat by lia. Qed.

End Misuse.

(** * The claims of the specification *)

Section Claims.

Context {Label : Type} `{EqDecision Label}.
Implicit Types (P G : list Label) (w : world Label).

(** A normal result is what the call has drawn. *)
Lemma findFailures_drawn np G P e q (m : Z) r :
  findFailures np G P e q m = Ret r → r = drawn np (length G) G P e q m.
Proof.
  unfold findFailures, drawn, test_set.
  destruct (show_failures _ _ _ _ _ _) as [w [[]|x]]; [|done].
  by intros [= <-].
Qed.

(** C1. For equal-length ground truth [G] and predictions [P] and a
    positive [maxResults], the call returns, and every returned tuple
    [(i, p, g)] has [p ≠ g], [P[i] = p] and [G[i] = g]. *)
Theorem returned_tuples_are_failures np G P e q (m : Z) :
  length G = length P → 0 < m →
  ∃ r, findFailures np G P e q m = Ret r ∧
       ∀ i p g, (i, p, g) ∈ r → p ≠ g ∧ P !! i = Some p ∧ G !! i = Some g.
Proof.
  intros Hlen Hm. exists (reference G P e q m).
  split; [by apply findFailures_aligned|].
  intros i p g Hin. rewrite <- (drawn_aligned np) in Hin by done.
  destruct (show_failures_well_formed np (length G) P G e q m)
    as (k & Hall & _ & _).
  rewrite Forall_forall in Hall.
  destruct (Hall _ Hin) as (HP & HG & Hmatch & _). simpl in *.
  split_and!; [|done..].
  unfold matching in Hmatch.
  apply andb_prop in Hmatch as [[Hne%bool_decide_eq_true _]%andb_prop _].
  done.
Qed.

(** C2. On every input, a set [expectedLabel] ([trueclass]) is the ground
    truth of every digit drawn, and a set [predictedLabel]
    ([predictedclass]) is the prediction of every digit drawn. *)
Theorem filters_respected np n G P e q (m : Z) i p g :
  (i, p, g) ∈ drawn np n G P e q m →
  (∀ t, e = Some t → g = t) ∧ (∀ t, q = Some t → p = t).
Proof.
  intros Hin.
  destruct (show_failures_well_formed np n P G e q m) as (k & Hall & _ & _).
  rewrite Forall_forall in Hall.
  destruct (Hall _ Hin) as (_ & _ & Hmatch & _).
  unfold matching in Hmatch.
  apply andb_prop in Hmatch as [[_ Hg]%andb_prop Hp].
  split; intros t ->; simpl in *; by eapply bool_decide_eq_true.
Qed.

(** C3. On every input with a cap that is not negative, at most
    [maxResults] digits are drawn, and their indices increase strictly. *)
Theorem bounded_and_increasing np n G P e q (m : Z) :
  0 ≤ m →
  Z.of_nat (length (drawn np n G P e q m)) ≤ m ∧
  StronglySorted lt (index_of <$> drawn np n G P e q m).
Proof.
  intros Hm.
  destruct (show_failures_well_formed np n P G e q m) as (k & _ & Hsort & Hlen).
  split; [|done]. unfold drawn. lia.
Qed.

(** C4. On equal-length inputs the scan with its early exit returns the
    reference selection: the matching failures of the full input, cut
    after [maxResults] entries.  When fewer than [maxResults] entries are
    returned, they are all the matching failures of the full input. *)
Theorem scan_refines_reference np G P e q (m : Z) :
  length G = length P → 0 ≤ m →
  findFailures np G P e q m = Ret (reference G P e q m) ∧
  (Z.of_nat (length (reference G P e q m)) < m →
   findFailures np G P e q m = Ret (List.filter (matching e q) (samples P G))).
Proof.
  intros Hlen Hm. split; [by apply findFailures_aligned|].
  intros Hcap. rewrite findFailures_aligned by done. f_equal.
  unfold reference in *. rewrite length_take in Hcap.
  apply take_ge. lia.
Qed.

(** C5, as amended.  The lengths are never compared.  When they differ
    and neither is one, no digit is drawn: a NumPy that refuses the
    comparison raises [ValueError] before anything is printed; an older
    NumPy lets the call print the header and open the figure, and the
    first index examined raises [TypeError].  When the ground truth has a
    single entry the comparison is broadcast, and the call does what it
    does on the first prediction alone. *)
Theorem length_mismatch_unchecked np G P e q (m : Z) :
  length G ≠ length P →
  (length G ≠ 1%nat → length P ≠ 1%nat →
   drawn np (length G) G P e q m = [] ∧
   match np with
   | Strict =>
       show_failures Strict P e q m (test_set G) = (test_set G, Raise ValueError)
   | Legacy =>
       G ≠ [] → 0 < m →
       show_failures Legacy P e q m (test_set G)
       = (after (test_set G) [PrintHeader m; Figure m 1], Raise TypeError)
   end) ∧
  (length G = 1%nat →
   findFailures np G P e q m = findFailures np G (take 1 P) e q m).
Proof.
  intros Hne. split.
  - intros HG HP.
    assert (Hrun : ∀ np', show_failures np' P e q m (test_set G)
      = match np' with
        | Strict => (test_set G, Raise ValueError)
        | Legacy =>
            match G with
            | [] => (after (test_set G) [PrintHeader m; Figure m 1], Ret tt)
            | _ :: _ =>
                if decide (m ≤ 0)
                then (after (test_set G) [PrintHeader m; Figure m 1], Ret tt)
                else (after (test_set G) [PrintHeader m; Figure m 1],
                      Raise TypeError)
            end
        end).
    { intros np'. unfold show_failures, test_set.
      unfold mbind at 1 2, M_bind at 1 2, global_y_test, lift. simpl.
      rewrite array_ne_incompatible by done. destruct np'; [|done].
      unfold mbind, M_bind, emit, global_X_test_shape0. simpl.
      rewrite for_range_scalar. destruct G; simpl; [done|]. by case_decide. }
    split.
    + unfold drawn. change (World (length G) G []) with (test_set G).
      rewrite Hrun. destruct np; [|done].
      destruct G; [done|]. by case_decide.
    + destruct np; [|apply Hrun]. intros HG' Hm. rewrite Hrun.
      destruct G; [done|]. by rewrite decide_False by lia.
  - intros HG. destruct G as [|g [|g' G]]; [done| |done].
    by destruct P as [|p [|p' P]].
Qed.

(** C6, as amended.  With [maxResults = 0] on equal-length inputs the
    call prints the header, opens the figure and makes no other call,
    because the loop leaves at its first test or has nothing to scan; it
    ends normally, and the result is the empty sequence. *)
Theorem zero_cap_ends_normally np G P e q :
  length G = length P →
  show_failures np P e q 0 (test_set G)
  = (after (test_set G) [PrintHeader 0; Figure 0 1], Ret tt) ∧
  findFailures np G P e q 0 = Ret [].
Proof.
  intros Hlen. split.
  - unfold test_set. rewrite show_failures_aligned by done.
    by rewrite reference_no_room.
  - rewrite findFailures_aligned by done. by rewrite reference_no_room.
Qed.

(** C7. On equal-length inputs with a positive cap, when no position is
    a failure that passes both filters the call ends normally with the
    empty result; so it does when predictions and ground truth agree
    everywhere. *)
Theorem no_match_empty_result np G P e q (m : Z) :
  length G = length P → 0 < m →
  (∀ i p g, P !! i = Some p → G !! i = Some g → p ≠ g →
            passes e g && passes q p = false) →
  findFailures np G P e q m = Ret [] ∧ findFailures np G G e q m = Ret [].
Proof.
  intros Hlen Hm Hnone. split.
  - rewrite findFailures_aligned by done. unfold reference, samples.
    by rewrite filter_samples_from_nil, take_nil.
  - rewrite findFailures_aligned by done. unfold reference, samples.
    rewrite filter_samples_from_nil, take_nil; [done|].
    intros i p g Hp Hg Hne. congruence.
Qed.


(** C10. On equal-length inputs without filters and with a positive cap,
    the call returns as many entries as there are positions where
    prediction and ground truth differ, or [maxResults] if that is less. *)
Theorem length_is_min_cap_failures np G P (m : Z) :
  length G = length P → 0 < m →
  ∃ r, findFailures np G P None None m = Ret r ∧
       Z.of_nat (length r) = Z.min m (Z.of_nat (count_failures G P)).
Proof.
  intros Hlen Hm. exists (reference G P None None m).
  split; [by apply findFailures_aligned|].
  unfold reference, samples.
  rewrite length_take, length_filter_samples_from. lia.
Qed.

End Claims.

(** * Concrete runs *)

(** The examples of the specification, with integer labels. *)
Example spec_example_all np :
  findFailures np [0; 1; 1; 2; 0] [0; 2; 1; 2; 1] None None 10
  = Ret [(1%nat, 2, 1); (4%nat, 1, 0)].
Proof. by destruct np. Qed.

Example spec_example_expected np :
  findFailures np [0; 1; 1; 2; 0] [0; 2; 1; 2; 1] (Some 1) None 10
  = Ret [(1%nat, 2, 1)].
Proof. by destruct np. Qed.

Example spec_example_predicted np :
  findFailures np [0; 1; 1; 2; 0] [0; 2; 1; 2; 1] None (Some 9) 10 = Ret [].
Proof. by destruct np. Qed.

(** What a call prints and plots on the way. *)
Example spec_example_calls :
  show_failures Strict [0; 0; 0] None None 2 (test_set [1; 1; 1])
  = (World 3 [1; 1; 1]
       [PrintHeader 2; Figure 2 1;
        Subplot 1 2 1; AxisOff; Imshow 0; Title 0 1;
        Subplot 1 2 2; AxisOff; Imshow 1; Title 0 1],
     Ret tt).
Proof. reflexivity. Qed.

(** C9. With [G = [1,1,1]], [P = [0,0,0]], no filters and
    [maxResults = 2] the result is [[(0,0,1), (1,0,1)]]; the failure at
    index 2 is left out by the cap alone, a cap of 3 returns it too. *)
Theorem cap_example np :
  findFailures np [1; 1; 1] [0; 0; 0] None None 2
  = Ret [(0%nat, 0, 1); (1%nat, 0, 1)] ∧
  findFailures np [1; 1; 1] [0; 0; 0] None None 3
  = Ret [(0%nat, 0, 1); (1%nat, 0, 1); (2%nat, 0, 1)].
Proof. by destruct np. Qed.

(** C1 at the first example of the specification. *)
Lemma returned_tuples_are_failures_witness :
  length [0; 1; 1; 2; 0] = length [0; 2; 1; 2; 1] ∧ 0 < 10 ∧
  ∃ r, findFailures Strict [0; 1; 1; 2; 0] [0; 2; 1; 2; 1] None None 10 = Ret r ∧
       ∀ i p g, (i, p, g) ∈ r →
         p ≠ g ∧ [0; 2; 1; 2; 1] !! i = Some p ∧ [0; 1; 1; 2; 0] !! i = Some g.
Proof.
  split; [reflexivity|]. split; [reflexivity|].
  apply (returned_tuples_are_failures Strict
           [0; 1; 1; 2; 0] [0; 2; 1; 2; 1] None None 10); reflexivity.
Defined.

(** C2 at the second example of the specification. *)
Lemma filters_respected_witness :
  (1%nat, 2, 1) ∈ drawn Strict 5 [0; 1; 1; 2; 0] [0; 2; 1; 2; 1] (Some 1) None 10 ∧
  (∀ t, Some 1 = Some t → 1 = t) ∧ (∀ t, @None Z = Some t → 2 = t).
Proof.
  split; [vm_compute; constructor|].
  apply (filters_respected Strict 5 [0; 1; 1; 2; 0] [0; 2; 1; 2; 1]
           (Some 1) None 10 1%nat 2 1).
  vm_compute. constructor.
Defined.

(** C3 at the capped example of the specification. *)
Lemma bounded_and_increasing_witness :
  0 ≤ 2 ∧
  Z.of_nat (length (drawn Strict 3 [1; 1; 1] [0; 0; 0] None None 2)) ≤ 2 ∧
  StronglySorted lt (index_of <$> drawn Strict 3 [1; 1; 1] [0; 0; 0] None None 2).
Proof.
  split; [discriminate|].
  apply (bounded_and_increasing Strict 3 [1; 1; 1] [0; 0; 0] None None 2).
  discriminate.
Defined.

(** C4 at the first example of the specification. *)
Lemma scan_refines_reference_witness :
  length [0; 1; 1; 2; 0] = length [0; 2; 1; 2; 1] ∧ 0 ≤ 10 ∧
  findFailures Legacy [0; 1; 1; 2; 0] [0; 2; 1; 2; 1] None None 10
  = Ret (reference [0; 1; 1; 2; 0] [0; 2; 1; 2; 1] None None 10) ∧
  (Z.of_nat (length (reference [0; 1; 1; 2; 0] [0; 2; 1; 2; 1] None None 10)) < 10 →
   findFailures Legacy [0; 1; 1; 2; 0] [0; 2; 1; 2; 1] None None 10
   = Ret (List.filter (matching None None)
            (samples [0; 2; 1; 2; 1] [0; 1; 1; 2; 0]))).
Proof.
  split; [reflexivity|]. split; [discriminate|].
  apply (scan_refines_reference Legacy
           [0; 1; 1; 2; 0] [0; 2; 1; 2; 1] None None 10);
    [reflexivity|discriminate].
Defined.

(** C5 as stated fails: one test label against three predictions is a
    length mismatch, and the call ends normally with a digit drawn,
    on either NumPy. *)
Lemma length_mismatch_not_refused :
  length [1] ≠ length [0; 1; 2] ∧
  findFailures Strict [1] [0; 1; 2] None None 10 = Ret [(0%nat, 0, 1)] ∧
  findFailures Legacy [1] [0; 1; 2] None None 10 = Ret [(0%nat, 0, 1)].
Proof. split; [discriminate|]. split; reflexivity. Qed.

(** C5 as amended, at the mismatch of the specification (three labels,
    four predictions) and at one label against three predictions. *)
Lemma length_mismatch_unchecked_witness :
  (length [1; 1; 1] ≠ length [0; 0; 0; 0] ∧
   length [1; 1; 1] ≠ 1%nat ∧ length [0; 0; 0; 0] ≠ 1%nat ∧
   drawn Strict (length [1; 1; 1]) [1; 1; 1] [0; 0; 0; 0] None None 10 = [] ∧
   show_failures Strict [0; 0; 0; 0] None None 10 (test_set [1; 1; 1])
   = (test_set [1; 1; 1], Raise ValueError)) ∧
  (length [1] ≠ length [0; 1; 2] ∧ length [1] = 1%nat ∧
   findFailures Legacy [1] [0; 1; 2] None None 10
   = findFailures Legacy [1] (take 1 [0; 1; 2]) None None 10).
Proof.
  split.
  - split; [discriminate|]. split; [discriminate|]. split; [discriminate|].
    apply (length_mismatch_unchecked Strict
             [1; 1; 1] [0; 0; 0; 0] None None 10); discriminate.
  - split; [discriminate|]. split; [reflexivity|].
    apply (length_mismatch_unchecked Legacy [1] [0; 1; 2] None None 10);
      [discriminate|reflexivity].
Defined.

(** C6 as stated fails: with [maxResults = 0] the call ends normally and
    returns the empty result, on either NumPy. *)
Lemma zero_cap_returns_empty :
  0 ≤ 0 ∧
  findFailures Strict [1; 1; 1] [0; 0; 0] None None 0 = Ret [] ∧
  findFailures Legacy [1; 1; 1] [0; 0; 0] None None 0 = Ret [].
Proof. split; [discriminate|]. split; reflexivity. Qed.

(** C6 as amended, at the capped example with [maxResults = 0]. *)
Lemma zero_cap_ends_normally_witness :
  length [1; 1; 1] = length [0; 0; 0] ∧
  show_failures Strict [0; 0; 0] None None 0 (test_set [1; 1; 1])
  = (after (test_set [1; 1; 1]) [PrintHeader 0; Figure 0 1], Ret tt) ∧
  findFailures Strict [1; 1; 1] [0; 0; 0] None None 0 = Ret [].
Proof.
  split; [reflexivity|].
  apply (zero_cap_ends_normally Strict [1; 1; 1] [0; 0; 0] None None).
  reflexivity.
Defined.

(** C7 at the third example of the specification: no failure is
    predicted as 9. *)
Lemma no_match_empty_result_witness :
  length [0; 1; 1; 2; 0] = length [0; 2; 1; 2; 1] ∧ 0 < 10 ∧
  (∀ i p g, [0; 2; 1; 2; 1] !! i = Some p → [0; 1; 1; 2; 0] !! i = Some g →
            p ≠ g → passes None g && passes (Some 9) p = false) ∧
  findFailures Strict [0; 1; 1; 2; 0] [0; 2; 1; 2; 1] None (Some 9) 10 = Ret [] ∧
  findFailures Strict [0; 1; 1; 2; 0] [0; 1; 1; 2; 0] None (Some 9) 10 = Ret [].
Proof.
  assert (Hnone : ∀ i p g,
    [0; 2; 1; 2; 1] !! i = Some p → [0; 1; 1; 2; 0] !! i = Some g →
    p ≠ g → passes None g && passes (Some 9) p = false).
  { intros [|[|[|[|[|i]]]]] p g [= <-] [= <-] Hne; reflexivity. }
  split; [reflexivity|]. split; [reflexivity|]. split; [exact Hnone|].
  apply (no_match_empty_result Strict
           [0; 1; 1; 2; 0] [0; 2; 1; 2; 1] None (Some 9) 10);
    [reflexivity|reflexivity|exact Hnone].
Defined.


(** C10 at the capped example of the specification. *)
Lemma length_is_min_cap_failures_witness :
  length [1; 1; 1] = length [0; 0; 0] ∧ 0 < 2 ∧
  ∃ r, findFailures Strict [1; 1; 1] [0; 0; 0] None None 2 = Ret r ∧
       Z.of_nat (length r) = Z.min 2 (Z.of_nat (count_failures [1; 1; 1] [0; 0; 0])).
Proof.
  split; [reflexivity|]. split; [reflexivity|].
  apply (length_is_min_cap_failures Strict [1; 1; 1] [0; 0; 0] 2); reflexivity.
Defined.

(** * Further properties of [show_failures] *)

Section Slots.

Context {Label : Type} `{EqDecision Label}.
Variables (pred : list Label) (trueclass predictedclass : option Label).
Variable maxtoshow : Z.
Variable errors : comparison.
Implicit Types (w : world Label) (log : list (event Label)).

Lemma subplots_snoc log (ev : event Label) :
  subplots (log ++ [ev])
  = subplots log ++ match ev with
                    | Subplot nrows ncols index => [(nrows, ncols, index)]
                    | _ => []
                    end.
Proof. unfold subplots. rewrite omap_app. by destruct ev. Qed.

Local Abbreviation slots_filled := (slots_filled maxtoshow).

Lemma slots_filled_after k w evs :
  Forall (λ ev, match ev with Subplot _ _ _ => False | _ => True end) evs →
  slots_filled k w → slots_filled k (after w evs).
Proof.
  intros Hevs [Hsub Hk]. split; [|done]. simpl.
  induction evs as [|ev evs IH] using rev_ind; [by rewrite app_nil_r|].
  rewrite Forall_app, Forall_singleton in Hevs. destruct Hevs as [Hevs Hev].
  rewrite app_assoc, subplots_snoc, IH by done.
  destruct ev; simpl in Hev; try done; by rewrite app_nil_r.
Qed.

Lemma slots_filled_subplot k w :
  Z.of_nat k < maxtoshow → slots_filled k w →
  slots_filled (S k) (after w [Subplot 1 maxtoshow (Z.of_nat k + 1)]).
Proof.
  intros Hroom [Hsub Hk]. split; [|lia]. cbn [after calls].
  by rewrite subplots_snoc, Hsub, seq_S, fmap_app.
Qed.

Lemma visit_slots i k w :
  Z.of_nat k < maxtoshow → slots_filled k w →
  wp (visit pred trueclass predictedclass maxtoshow errors i (Z.of_nat k))
     (λ ii' w', ∃ k', ii' = Z.of_nat k' ∧ slots_filled k' w')
     (λ _ w', ∃ k', slots_filled k' w') w.
Proof.
  intros Hroom Hfilled.
  assert (Hdraw : ∀ evs,
    Forall (λ ev, match ev with Subplot _ _ _ => False | _ => True end) evs →
    slots_filled (S k) (after w (Subplot 1 maxtoshow (Z.of_nat k + 1) :: evs))).
  { intros evs Hevs.
    change (Subplot 1 maxtoshow (Z.of_nat k + 1) :: evs)
      with ([Subplot 1 maxtoshow (Z.of_nat k + 1)] ++ evs).
    rewrite <- after_after.
    by apply slots_filled_after, slots_filled_subplot. }
  unfold visit, errors_getitem, trueclass_differs, predictedclass_differs, draw.
  repeat wp_step.
  all: rewrite ?after_after; cbn [app].
  all: try (by exists k).
  all: try (exists (S k); apply Hdraw; by repeat constructor).
  all: exists (S k); split; [lia|]; apply Hdraw; by repeat constructor.
Qed.

Lemma for_range_slots indices : ∀ k w,
  slots_filled k w →
  wp (for_range pred trueclass predictedclass maxtoshow errors indices
        (Z.of_nat k))
     (λ _ w', ∃ k', slots_filled k' w')
     (λ _ w', ∃ k', slots_filled k' w') w.
Proof.
  induction indices as [|i rest IH]; intros k w Hfilled; simpl.
  - apply wp_ret. by exists k.
  - case_decide.
    + apply wp_ret. by exists k.
    + apply wp_bind.
      eapply wp_mono; [apply visit_slots; [lia|done]| |done].
      intros ii' w' (k' & -> & Hfilled'). by apply IH.
Qed.

End Slots.

Section SlotsOfACall.

Context {Label : Type} `{EqDecision Label}.

(** X1. On every input, and whether the call ends normally or raises,
    the [plt.subplot] calls it makes ask for slots 1, 2, ..., k in this
    order, of a figure of one row and [maxtoshow] columns, with
    [k ≤ maxtoshow]: no call asks for a slot outside the figure, and no
    slot is asked for twice. *)
Theorem subplot_slots_consecutive np n (G P : list Label) e q (m : Z) :
  ∃ k : nat,
    subplots (calls (show_failures np P e q m (World n G [])).1)
    = slot m <$> seq 0 k ∧
    Z.of_nat k ≤ Z.max 0 m.
Proof.
  set (post := λ w : world Label, ∃ k, slots_filled m k w).
  cut (wp (show_failures np P e q m) (λ _, post) (λ _, post) (World n G [])).
  { unfold wp. by destruct (show_failures _ _ _ _ _ _) as [w' [[]|x]]. }
  assert (Hnone : ∀ evs,
    Forall (λ ev : event Label,
              match ev with Subplot _ _ _ => False | _ => True end) evs →
    slots_filled m 0 (after (World n G []) evs)).
  { intros evs Hevs. apply slots_filled_after; [done|]. split; [done|lia]. }
  unfold show_failures. apply wp_bind, wp_global_y_test, wp_bind, wp_lift.
  simpl. destruct (array_ne np P G) as [errors|x]; [|by exists 0%nat; split; [|lia]].
  do 2 (apply wp_bind, wp_emit). apply wp_bind, wp_global_X_test_shape0.
  apply wp_bind. rewrite after_after.
  eapply wp_mono; [apply (for_range_slots P e q m errors _ 0%nat)|..].
  - apply Hnone. by repeat constructor.
  - intros ii w' Hpost. by apply wp_ret.
  - done.
Qed.

(** X12. On every input, a call whose two filters name the same class
    draws nothing: a digit is only drawn where prediction and test label
    differ, so they cannot both be that class. *)
Theorem same_class_filters_draw_nothing np n (G P : list Label) (t : Label)
    (m : Z) :
  drawn np n G P (Some t) (Some t) m = [].
Proof.
  destruct (show_failures_well_formed np n P G (Some t) (Some t) m)
    as (k & Hall & _ & _).
  fold (drawn np n G P (Some t) (Some t) m) in Hall.
  destruct (drawn np n G P (Some t) (Some t) m) as [|[[i p] g] fs]; [done|].
  apply Forall_cons in Hall as [(_ & _ & Hmatch & _) _].
  unfold matching in Hmatch. simpl in Hmatch.
  apply andb_prop in Hmatch as [[Hne Hg]%andb_prop Hp].
  apply bool_decide_eq_true in Hne, Hg, Hp. congruence.
Qed.

End SlotsOfACall.

(** ** The selection on aligned inputs *)

Section Selection.

Context {Label : Type} `{EqDecision Label}.
Implicit Types (P G : list Label) (s : failure Label).

Lemma elem_of_samples_from P : ∀ G k j p g,
  (j, p, g) ∈ samples_from k P G ↔
  ∃ i, j = (k + i)%nat ∧ P !! i = Some p ∧ G !! i = Some g.
Proof.
  induction P as [|p0 P IH]; intros G k j p g.
  { simpl. split; [intros H; by apply elem_of_nil in H|].
    intros (i & _ & H & _). by rewrite lookup_nil in H. }
  destruct G as [|g0 G].
  { simpl. split; [intros H; by apply elem_of_nil in H|].
    intros (i & _ & _ & H). by rewrite lookup_nil in H. }
  simpl. rewrite elem_of_cons, IH. split.
  - intros [[= -> -> ->]|(i & -> & ? & ?)].
    + exists 0%nat. auto with lia.
    + exists (S i). auto with lia.
  - intros ([|i] & -> & Hp & Hg); simpl in *.
    + left. simplify_eq. by rewrite Nat.add_0_r.
    + right. exists i. auto with lia.
Qed.

Lemma samples_from_app P : ∀ G P' G' k,
  length P = length G →
  samples_from k (P ++ P') (G ++ G')
  = samples_from k P G ++ samples_from (k + length P) P' G'.
Proof.
  induction P as [|p P IH]; intros [|g G] P' G' k Hlen; try done; simpl.
  - by rewrite Nat.add_0_r.
  - rewrite IH by (simpl in Hlen; lia). do 3 f_equal. lia.
Qed.

Lemma samples_from_sorted P : ∀ G k,
  StronglySorted (λ s s', (index_of s < index_of s')%nat) (samples_from k P G).
Proof.
  induction P as [|p P IH]; intros [|g G] k; simpl; try by constructor.
  constructor; [apply IH|].
  apply Forall_forall. intros [[j p'] g'] (i & -> & _)%elem_of_samples_from.
  unfold index_of. simpl. lia.
Qed.

Lemma length_samples_from P : ∀ G k,
  length P = length G → length (samples_from k P G) = length G.
Proof.
  induction P as [|p P IH]; intros [|g G] k Hlen; try done; simpl.
  rewrite IH; [done|]. simpl in Hlen. lia.
Qed.

Lemma filter_sorted {A} (R : A → A → Prop) (f : A → bool) (l : list A) :
  StronglySorted R l → StronglySorted R (List.filter f l).
Proof.
  induction 1 as [|a l Hl IH Hall]; simpl; [constructor|].
  destruct (f a); [|done]. constructor; [done|].
  rewrite Forall_forall in *. intros x Hx%list_elem_of_In%filter_In.
  apply Hall, list_elem_of_In, Hx.
Qed.

Lemma filter_filter_andb {A} (f g : A → bool) (l : list A) :
  List.filter f (List.filter g l) = List.filter (λ x, g x && f x) l.
Proof.
  induction l as [|a l IH]; simpl; [done|].
  destruct (g a); simpl; [destruct (f a)|]; by rewrite IH.
Qed.

Lemma matching_split e q s :
  matching e q s = matching None None s && passes_filters e q s.
Proof.
  destruct s as [[i p] g]. unfold matching, passes_filters. simpl.
  by rewrite !andb_true_r, andb_assoc.
Qed.

(** A prefix of a list sorted by index holds every entry of the list
    that lies before one of its own. *)
Lemma take_sorted_downward (n : nat) (l : list (failure Label)) s s' :
  StronglySorted (λ s s', (index_of s < index_of s')%nat) l →
  s ∈ take n l → s' ∈ l → (index_of s' < index_of s)%nat → s' ∈ take n l.
Proof.
  intros Hsort Hs Hs' Hlt.
  rewrite <- (take_drop n l) in Hsort, Hs'.
  apply elem_of_app in Hs' as [?|Hs']; [done|].
  pose proof (StronglySorted_app_1_elem_of _ _ _ _ _ Hsort Hs Hs') as Hord.
  simpl in Hord. lia.
Qed.

End Selection.

Section SelectionOfACall.

Context {Label : Type} `{EqDecision Label}.
Implicit Types (P G : list Label).

(** X2. On aligned inputs with a cap that is not negative a call has
    exactly this effect: it prints the
    header, opens one figure of width [maxtoshow] and height 1, and then,
    for the k-th selected failure in turn, asks for slot k, switches the
    axes off, shows the image of the row and titles it "p (g)"; it ends
    normally, and makes two calls plus four for each digit. *)
Theorem aligned_call_trace np G P e q (m : Z) log :
  length G = length P → 0 ≤ m →
  show_failures np P e q m (World (length G) G log)
  = (World (length G) G
       (log ++ PrintHeader m :: Figure m 1
            :: render m 0 (reference G P e q m)), Ret tt) ∧
  length (PrintHeader m :: Figure m 1 :: render m 0 (reference G P e q m))
  = (2 + 4 * length (reference G P e q m))%nat.
Proof.
  intros Hlen Hm. split; [by apply show_failures_aligned|].
  simpl. f_equal. f_equal. generalize 0.
  induction (reference G P e q m) as [|[[i p] g] fs IH]; intros ii; [done|].
  simpl. rewrite IH. lia.
Qed.

(** X3. On aligned inputs with a cap that is not negative the call
    returns, and the result skips no failure: whenever a
    position is in the result, every earlier position that is a failure
    passing both filters is in the result too. *)
Theorem no_earlier_failure_skipped np G P e q (m : Z) :
  length G = length P → 0 ≤ m →
  ∃ r, findFailures np G P e q m = Ret r ∧
       ∀ i p g j p' g',
         (i, p, g) ∈ r → (j < i)%nat →
         P !! j = Some p' → G !! j = Some g' →
         matching e q (j, p', g') = true →
         (j, p', g') ∈ r.
Proof.
  intros Hlen Hm. exists (reference G P e q m).
  split; [by apply findFailures_aligned|].
  intros i p g j p' g' Hin Hlt Hp Hg Hmatch. unfold reference in *.
  eapply take_sorted_downward; [|done| |done].
  - apply filter_sorted, samples_from_sorted.
  - apply list_elem_of_In, filter_In. split; [|done].
    apply list_elem_of_In, elem_of_samples_from. by exists j.
Qed.

(** X4. On aligned inputs a larger cap only appends: the result for a
    cap [m] that is not negative is a prefix of the result for any
    [m' ≥ m]. *)
Theorem larger_cap_extends_result np G P e q (m m' : Z) :
  length G = length P → 0 ≤ m → m ≤ m' →
  ∃ r r', findFailures np G P e q m = Ret r ∧
          findFailures np G P e q m' = Ret r' ∧
          r `prefix_of` r'.
Proof.
  intros Hlen Hpos Hm. exists (reference G P e q m), (reference G P e q m').
  split_and!; [by apply findFailures_aligned..|].
  unfold reference.
  set (l := List.filter _ _).
  replace (take (Z.to_nat m) l)
    with (take (Z.to_nat m) (take (Z.to_nat m') l))
    by (rewrite take_take; f_equal; lia).
  apply prefix_take.
Qed.

(** X5. On aligned inputs with a cap of at least the size of the test
    set, a call with filters returns what a call without filters returns,
    filtered afterwards: the filters select among the failures and never
    add or reorder any. *)
Theorem filters_commute_with_scan np G P e q (m : Z) :
  length G = length P → Z.of_nat (length G) ≤ m →
  ∃ everything,
    findFailures np G P None None m = Ret everything ∧
    findFailures np G P e q m
    = Ret (List.filter (passes_filters e q) everything).
Proof.
  intros Hlen Hm.
  assert (Hall : ∀ e' q', reference G P e' q' m
    = List.filter (matching e' q') (samples P G)).
  { intros e' q'. unfold reference. apply take_ge.
    etrans; [apply filter_length_le|].
    unfold samples. rewrite length_samples_from by done. lia. }
  exists (reference G P None None m).
  rewrite !findFailures_aligned by done. split; [done|]. f_equal.
  rewrite !Hall, filter_filter_andb.
  apply filter_ext. intros s. apply matching_split.
Qed.

(** X6. The scan never looks past the cap: on aligned inputs with a cap
    that is not negative, the result
    for a test set is a prefix of the result for the same test set with
    more samples appended, and once the result holds [maxtoshow] entries
    the appended samples change nothing. *)
Theorem scan_stops_at_cap np G P G' P' e q (m : Z) :
  length G = length P → length G' = length P' → 0 ≤ m →
  ∃ r r', findFailures np G P e q m = Ret r ∧
          findFailures np (G ++ G') (P ++ P') e q m = Ret r' ∧
          r `prefix_of` r' ∧
          (Z.of_nat (length r) = m → r' = r).
Proof.
  intros Hlen Hlen' Hm.
  exists (reference G P e q m), (reference (G ++ G') (P ++ P') e q m).
  rewrite !findFailures_aligned by (rewrite ?length_app; lia).
  split_and!; [done..| |].
  - unfold reference, samples.
    rewrite samples_from_app, List.filter_app by done.
    rewrite take_app. apply prefix_app_r. done.
  - intros Hfull. unfold reference, samples in *.
    rewrite samples_from_app, List.filter_app by done.
    rewrite length_take in Hfull.
    rewrite take_app_le by lia. done.
Qed.

End SelectionOfACall.

(** ** One prediction against a longer test set *)

Section SinglePrediction.

Context {Label : Type} `{EqDecision Label}.
Variables (p : Label) (G : list Label) (trueclass predictedclass : option Label).
Variable maxtoshow : Z.
Implicit Types (w : world Label).

Local Abbreviation errors := (Elementwise (py_ne p <$> G)).

(** Index 0 is inside both arrays. *)
Lemma visit_single_first ii w g :
  G !! 0%nat = Some g → y_test w = G → (0 < X_test_rows w)%nat →
  visit [p] trueclass predictedclass maxtoshow errors 0 ii w =
  if matching trueclass predictedclass (0%nat, p, g)
  then (after w [Subplot 1 maxtoshow (ii + 1); AxisOff; Imshow 0; Title p g],
        Ret (ii + 1))
  else (w, Ret ii).
Proof.
  intros Hg Hy Hk. destruct w as [n y log]. simpl in *. subst y.
  unfold matching. rewrite !passes_negb_py_ne.
  unfold visit, errors_getitem, trueclass_differs, predictedclass_differs, draw,
    X_test_getrow, getitem, global_y_test, global_X_test_shape0, emit, after,
    mbind, M_bind, mret, M_ret.
  rewrite list_lookup_fmap, Hg. simpl.
  destruct (py_ne p g); simpl; [|done].
  assert (Hrow : ∀ log',
    (if decide (0 < n)%nat then λ w0 : world Label, (w0, Ret 0%nat)
     else raise IndexError) (World n G log') = (World n G log', Ret 0%nat)).
  { intros log'. by rewrite decide_True. }
  destruct trueclass as [t|]; simpl; rewrite ?Hg; simpl;
    [destruct (py_ne g t); simpl; [done|]|];
    (destruct predictedclass as [t'|]; simpl;
     [destruct (py_ne p t'); simpl; [done|]|]);
    rewrite Hrow; simpl; rewrite ?Hg; simpl; by rewrite <- !app_assoc.
Qed.

(** A later index is outside [pred]: reading [pred[k]] raises. *)
Lemma visit_single_later k ii w g :
  G !! S k = Some g → y_test w = G → (S k < X_test_rows w)%nat →
  visit [p] trueclass predictedclass maxtoshow errors (S k) ii w =
  if offending p trueclass g
  then (match predictedclass with
        | Some _ => w
        | None => after w [Subplot 1 maxtoshow (ii + 1); AxisOff; Imshow (S k)]
        end, Raise IndexError)
  else (w, Ret ii).
Proof.
  intros Hg Hy Hk. destruct w as [n y log]. simpl in *. subst y.
  unfold offending. rewrite passes_negb_py_ne.
  unfold visit, errors_getitem, trueclass_differs, predictedclass_differs, draw,
    X_test_getrow, getitem, global_y_test, global_X_test_shape0, emit, after,
    mbind, M_bind, mret, M_ret.
  rewrite list_lookup_fmap, Hg. simpl.
  destruct (py_ne p g); simpl; [|done].
  destruct trueclass as [t|]; simpl; rewrite ?Hg; simpl;
    [destruct (py_ne g t); simpl; [done|]|];
    (destruct predictedclass as [t'|]; simpl; [done|]);
    rewrite decide_True by done; simpl; by rewrite <- !app_assoc.
Qed.

(** The loop over later indices: it makes no call before the first
    offending label, and ends the call there. *)
Lemma for_range_single_later len : ∀ k ii w,
  (S k + len ≤ length G)%nat → y_test w = G → X_test_rows w = length G →
  ii < maxtoshow →
  for_range [p] trueclass predictedclass maxtoshow errors (seq (S k) len) ii w
  = match first_offending p trueclass (S k) (take len (drop (S k) G)) with
    | Some j =>
        (match predictedclass with
         | Some _ => w
         | None => after w [Subplot 1 maxtoshow (ii + 1); AxisOff; Imshow j]
         end, Raise IndexError)
    | None => (w, Ret ii)
    end.
Proof.
  induction len as [|len IH]; intros k ii w Hlen Hy Hn Hii.
  - by rewrite take_0.
  - destruct (lookup_lt_is_Some_2 G (S k)) as [g Hg]; [lia|].
    rewrite (drop_S _ _ _ Hg). cbn [seq for_range take first_offending].
    rewrite decide_False by lia. unfold mbind, M_bind at 1.
    rewrite (visit_single_later _ _ _ g) by (done || lia).
    destruct (offending p trueclass g); [done|].
    apply IH; [lia|done..].
Qed.

Lemma first_offending_existsb (gs : list Label) : ∀ k,
  existsb (offending p trueclass) gs
  = match first_offending p trueclass k gs with
    | Some _ => true
    | None => false
    end.
Proof.
  induction gs as [|g gs IH]; intros k; simpl; [done|].
  destruct (offending p trueclass g); [done|]. apply IH.
Qed.

End SinglePrediction.

Section SinglePredictionCall.

Context {Label : Type} `{EqDecision Label}.

(** X7. One prediction against a test set of two or more labels (and a
    cap of at least 2): the comparison is broadcast and index 0 is
    treated as on aligned inputs.  The call raises [IndexError] exactly
    when a later test label differs from the prediction and passes the
    [trueclass] filter, and otherwise ends normally.  At the first such
    index [j] it raises before any further call when [predictedclass] is
    set; when it is not, it has already asked for the next slot, switched
    the axes off and shown the image of row [j], which stays without a
    title.  Besides the header and the figure, the call makes no other
    call. *)
Theorem single_prediction_broadcast np (p g0 : Label) (G' : list Label)
    e q (m : Z) :
  G' ≠ [] → 2 ≤ m →
  (show_failures np [p] e q m (test_set (g0 :: G'))).2
  = (if existsb (offending p e) G' then Raise IndexError else Ret tt) ∧
  show_failures np [p] e q m (test_set (g0 :: G'))
  = let first := if matching e q (0%nat, p, g0)
                 then [Subplot 1 m 1; AxisOff; Imshow 0; Title p g0]
                 else [] in
    let ii := if matching e q (0%nat, p, g0) then 1 else 0 in
    match first_offending p e 1 G' with
    | Some j =>
        (after (test_set (g0 :: G'))
           (PrintHeader m :: Figure m 1 :: first
              ++ match q with
                 | Some _ => []
                 | None => [Subplot 1 m (ii + 1); AxisOff; Imshow j]
                 end),
         Raise IndexError)
    | None =>
        (after (test_set (g0 :: G')) (PrintHeader m :: Figure m 1 :: first),
         Ret tt)
    end.
Proof.
  intros HG' Hm. set (G := g0 :: G').
  assert (Hne : array_ne np [p] G = Ret (Elementwise (py_ne p <$> G))).
  { unfold array_ne. rewrite decide_False; [done|]. by destruct G'. }
  assert (Hrun : show_failures np [p] e q m (test_set G)
    = let first := if matching e q (0%nat, p, g0)
                   then [Subplot 1 m 1; AxisOff; Imshow 0; Title p g0]
                   else [] in
      let ii := if matching e q (0%nat, p, g0) then 1 else 0 in
      match first_offending p e 1 G' with
      | Some j =>
          (after (test_set G)
             (PrintHeader m :: Figure m 1 :: first
                ++ match q with
                   | Some _ => []
                   | None => [Subplot 1 m (ii + 1); AxisOff; Imshow j]
                   end),
           Raise IndexError)
      | None =>
          (after (test_set G) (PrintHeader m :: Figure m 1 :: first), Ret tt)
      end).
  { unfold show_failures, test_set.
    unfold mbind at 1 2, M_bind at 1 2, global_y_test, lift. cbn [y_test].
    rewrite Hne.
    unfold mbind at 1 2 3 4, M_bind at 1 2 3 4, emit, after,
      global_X_test_shape0.
    cbn [X_test_rows y_test calls app].
    change (seq 0 (length G)) with (0%nat :: seq 1 (length G')).
    cbn [for_range].
    rewrite decide_False by lia. unfold mbind at 1, M_bind at 1.
    rewrite (visit_single_first p G e q m 0 _ g0) by (done || simpl; lia).
    destruct (matching e q (0%nat, p, g0)).
    - rewrite (for_range_single_later p G e q m (length G') 0)
        by (done || lia).
      simpl drop. rewrite drop_0, firstn_all. unfold after, test_set.
      cbn [X_test_rows y_test calls app].
      destruct (first_offending p e 1 G'); [|done].
      by destruct q.
    - rewrite (for_range_single_later p G e q m (length G') 0)
        by (done || lia).
      simpl drop. rewrite drop_0, firstn_all. unfold after, test_set.
      cbn [X_test_rows y_test calls app].
      destruct (first_offending p e 1 G'); [|done].
      by destruct q. }
  split; [|exact Hrun].
  rewrite Hrun, (first_offending_existsb p e G' 1). cbn zeta.
  by destruct (first_offending p e 1 G').
Qed.

End SinglePredictionCall.

(** * The mosaics *)

Section MosaicFacts.

Context {Pixel : Type}.
Variable zero : Pixel.
Implicit Types (X M : list (list Pixel)) (img : image Pixel) (v : list Pixel).

Lemma div_28_band (r i : nat) :
  (28 * i ≤ r < 28 * i + 28)%nat ↔ (r / 28 = i)%nat.
Proof.
  split; intros H.
  - symmetry. apply (Nat.div_unique r 28 i (r - 28 * i)); lia.
  - subst. pose proof (Nat.div_mod_eq r 28).
    pose proof (Nat.mod_upper_bound r 28). lia.
Qed.

Lemma sub_28_mod (r i : nat) : (r / 28 = i → r - 28 * i = r mod 28)%nat.
Proof. intros <-. pose proof (Nat.div_mod_eq r 28). lia. Qed.

Lemma select_rows_Forall (Q : list Pixel → Prop) X : ∀ mask,
  Forall Q X → Forall Q (select_rows X mask).
Proof.
  induction X as [|x X IH]; intros [|b mask] HX; simpl; try by constructor.
  apply Forall_cons in HX as [Hx HX].
  destruct b; [constructor; [done|]|]; by apply IH.
Qed.

(** The [try] block over the tiles [j], ..., [j + len - 1] of band [i]:
    it never raises, keeps the shape, and writes the tiles whose entry
    exists. *)
Lemma fill_row_spec (n i : nat) M len : ∀ j img,
  Forall (λ v, length v = 784%nat) M →
  (j + len = n)%nat → width img = (28 * n)%nat →
  (28 * i + 28 ≤ height img)%nat →
  ∃ img',
    fill_row zero n M i (28 * i) (seq j len) img = Ret img' ∧
    height img' = height img ∧ width img' = width img ∧
    ∀ r c,
      pixel img' r c
      = if decide (r / 28 = i ∧ j ≤ c / 28 < j + len ∧
                   i * n + c / 28 < length M)%nat
        then match M !! (i * n + c / 28)%nat with
             | Some v => default zero (v !! (28 * (r mod 28) + c mod 28)%nat)
             | None => zero
             end
        else pixel img r c.
Proof.
  induction len as [|len IH]; intros j img HM Hj Hw Hh.
  { exists img. split_and!; [done..|]. intros r c.
    rewrite decide_False by lia. done. }
  cbn [seq fill_row].
  destruct (M !! (i * n + j)%nat) as [v|] eqn:Hv.
  - assert (Hlen : length v = 784%nat).
    { rewrite Forall_forall in HM. eapply HM, list_elem_of_lookup_2, Hv. }
    unfold reshape_28_28. rewrite decide_True by done.
    unfold assign_block. rewrite decide_True by lia.
    match goal with
    | |- context [fill_row _ _ _ _ _ _ ?img1] =>
        destruct (IH (S j) img1) as (img' & Hrun & Hh' & Hw' & Hpix);
          [done|lia|simpl; lia|simpl; lia|]
    end.
    exists img'. split_and!; [done..|]. intros r c.
    rewrite Hpix. cbn [pixel].
    apply lookup_lt_Some in Hv as Hlt.
    destruct (decide (r / 28 = i ∧ S j ≤ c / 28 < S j + len ∧
                      i * n + c / 28 < length M)%nat) as [Hin|Hout].
    + rewrite decide_True by lia. done.
    + destruct (decide (28 * i ≤ r < 28 * i + 28 ∧
                        28 * j ≤ c < 28 * j + 28)%nat) as [[Hr Hc]|Hblock].
      * apply div_28_band in Hr as Hr'. apply div_28_band in Hc as Hc'.
        rewrite decide_True by lia. rewrite Hc', Hv.
        by rewrite (sub_28_mod r i), (sub_28_mod c j).
      * rewrite decide_False; [done|].
        intros (Hr & Hc & Hlt'). apply Hblock.
        rewrite !div_28_band. lia.
  - exists img. split_and!; [done..|]. intros r c.
    apply lookup_ge_None in Hv. rewrite decide_False by lia. done.
Qed.

(** One band, for aligned labels and rows of 784 pixels. *)
Lemma band_spec (n i : nat) X (labels : list Z) (l : Z) img :
  length labels = length X →
  Forall (λ v, length v = 784%nat) X →
  width img = (28 * n)%nat → (28 * i + 28 ≤ height img)%nat →
  ∃ img',
    band zero n X labels l i img = Ret img' ∧
    height img' = height img ∧ width img' = width img ∧
    ∀ r c, (c < 28 * n)%nat →
      pixel img' r c
      = if decide (r / 28 = i)%nat
        then match members X labels l !! (i * n + c / 28)%nat with
             | Some v => default zero (v !! (28 * (r mod 28) + c mod 28)%nat)
             | None => pixel img r c
             end
        else pixel img r c.
Proof.
  intros Hlen HX Hw Hh. unfold band, mask_rows.
  rewrite decide_True by (by rewrite length_fmap).
  fold (members X labels l).
  destruct (fill_row_spec n i (members X labels l) n 0 img)
    as (img' & Hrun & Hh' & Hw' & Hpix); [|done..|].
  { by apply select_rows_Forall. }
  exists img'. split_and!; [done..|]. intros r c Hc. rewrite Hpix.
  assert (c / 28 < n)%nat.
  { apply Nat.Div0.div_lt_upper_bound. lia. }
  destruct (decide (r / 28 = i)%nat) as [Hr|Hr].
  - destruct (members X labels l !! (i * n + c / 28)%nat) as [v|] eqn:Hv.
    + apply lookup_lt_Some in Hv. by rewrite decide_True by lia.
    + apply lookup_ge_None in Hv. by rewrite decide_False by lia.
  - by rewrite decide_False by lia.
Qed.

(** The outer loop of the cluster mosaics over the bands [i0], ...,
    [i0 + len - 1]. *)
Lemma cluster_bands_spec X (labels_ : list Z) len : ∀ i0 img,
  length labels_ = length X →
  Forall (λ v, length v = 784%nat) X →
  width img = (28 * n_img_per_row)%nat →
  (28 * (i0 + len) ≤ height img)%nat →
  (∀ r c, (c < 28 * n_img_per_row)%nat →
     pixel img r c
     = if decide (r / 28 < i0)%nat
       then tiled zero n_img_per_row
              (λ i, members X labels_ (Z.of_nat i)) r c
       else zero) →
  ∃ img',
    cluster_bands zero X labels_ (seq i0 len) img = Ret img' ∧
    height img' = height img ∧ width img' = width img ∧
    ∀ r c, (c < 28 * n_img_per_row)%nat →
      pixel img' r c
      = if decide (r / 28 < i0 + len)%nat
        then tiled zero n_img_per_row
               (λ i, members X labels_ (Z.of_nat i)) r c
        else zero.
Proof.
  induction len as [|len IH]; intros i0 img Hlen HX Hw Hh Hpix.
  { exists img. split_and!; [done..|]. intros r c Hc.
    rewrite Hpix by done. by rewrite Nat.add_0_r. }
  cbn [seq cluster_bands].
  destruct (band_spec n_img_per_row i0 X labels_ (Z.of_nat i0) img)
    as (img1 & Hrun1 & Hh1 & Hw1 & Hpix1); [done..|lia|].
  rewrite Hrun1.
  destruct (IH (S i0) img1) as (img' & Hrun & Hh' & Hw' & Hpix');
    [done|done|lia|lia| |].
  { intros r c Hc. rewrite Hpix1, Hpix by done.
    destruct (decide (r / 28 = i0)%nat) as [Hr|Hr].
    - rewrite decide_False, decide_True by lia. unfold tiled. rewrite Hr.
      by destruct (members X labels_ (Z.of_nat i0) !! _).
    - destruct (decide (r / 28 < i0)%nat).
      + by rewrite decide_True by lia.
      + by rewrite decide_False by lia. }
  exists img'. split_and!; [done|lia|lia|]. intros r c Hc.
  rewrite Hpix' by done.
  destruct (decide (r / 28 < S i0 + len)%nat).
  - by rewrite decide_True by lia.
  - by rewrite decide_False by lia.
Qed.

(** X8. The mosaic of a clustering.  When there is one cluster label for
    each sample and every sample has 784 pixels, the loops end normally
    with an image of [28 * n_clusters] by [28 * 32] pixels in which tile
    [j] of band [i] is entry [32 * i + j] of the samples of cluster [i],
    as a block of 28 by 28 pixels, and is left at zero when cluster [i]
    has no such entry: band [i] starts [32 * i] entries into its
    cluster. *)
Theorem cluster_mosaic_pixels (n_clusters : nat) X (labels_ : list Z) :
  length labels_ = length X →
  Forall (λ v, length v = 784%nat) X →
  ∃ img,
    cluster_mosaic zero n_clusters X labels_ = Ret img ∧
    height img = (28 * n_clusters)%nat ∧
    width img = (28 * n_img_per_row)%nat ∧
    ∀ r c, (r < 28 * n_clusters)%nat → (c < 28 * n_img_per_row)%nat →
      pixel img r c
      = tiled zero n_img_per_row (λ i, members X labels_ (Z.of_nat i)) r c.
Proof.
  intros Hlen HX. unfold cluster_mosaic.
  destruct (cluster_bands_spec X labels_ n_clusters 0
              (zeros zero (28 * n_clusters) (28 * n_img_per_row)))
    as (img & Hrun & Hh & Hw & Hpix); [done..|simpl; lia| |].
  { intros r c _. by rewrite decide_False by lia. }
  exists img. split_and!; [done..|]. intros r c Hr Hc.
  rewrite Hpix by done. rewrite decide_True; [done|].
  apply Nat.Div0.div_lt_upper_bound. lia.
Qed.

(** X9. The mosaic of an anomaly detector.  When there is one prediction
    for each sample and every sample has 784 pixels, the loops end
    normally with an image of 56 by [28 * 32] pixels; tile [j] of the
    upper band is entry [j] of the samples predicted [-1], and tile [j]
    of the lower band is entry [32 + j] of the samples predicted [1]: the
    lower band passes over the first 32 of them. *)
Theorem anomaly_mosaic_pixels X (predictions : list Z) :
  length predictions = length X →
  Forall (λ v, length v = 784%nat) X →
  ∃ img,
    anomaly_mosaic zero X predictions = Ret img ∧
    height img = 56%nat ∧ width img = (28 * n_img_per_row)%nat ∧
    ∀ r c, (r < 56)%nat → (c < 28 * n_img_per_row)%nat →
      pixel img r c
      = match (if decide (r < 28)%nat
               then members X predictions (-1) !! (c / 28)%nat
               else members X predictions 1 !! (n_img_per_row + c / 28)%nat)
        with
        | Some v => default zero (v !! (28 * (r mod 28) + c mod 28)%nat)
        | None => zero
        end.
Proof.
  intros Hlen HX. unfold anomaly_mosaic. cbn [seq anomaly_bands].
  change (anolabels !! 0%nat) with (Some (-1)).
  change (anolabels !! 1%nat) with (Some 1).
  destruct (band_spec n_img_per_row 0 X predictions (-1)
              (zeros zero (28 * 2) (28 * n_img_per_row)))
    as (img0 & Hrun0 & Hh0 & Hw0 & Hpix0); [done..|simpl; lia|].
  rewrite Hrun0.
  destruct (band_spec n_img_per_row 1 X predictions 1 img0)
    as (img1 & Hrun1 & Hh1 & Hw1 & Hpix1); [done..|simpl in *; lia|].
  rewrite Hrun1.
  exists img1. split_and!; [done|simpl in *; lia|simpl in *; lia|].
  intros r c Hr Hc. rewrite Hpix1, Hpix0 by done. cbn [zeros pixel].
  destruct (decide (r < 28)%nat) as [Hlt|Hge].
  - assert (r / 28 = 0)%nat as -> by (apply div_28_band; lia).
    rewrite decide_False, decide_True by done.
    rewrite Nat.mul_0_l, Nat.add_0_l.
    by destruct (members X predictions (-1) !! _).
  - assert (r / 28 = 1)%nat as -> by (apply div_28_band; lia).
    rewrite decide_True by done. rewrite Nat.mul_1_l.
    destruct (members X predictions 1 !! _); [done|].
    by rewrite decide_False.
Qed.

(** X10. The number printed as the number of anomalies is the number of
    samples the upper band of the anomaly mosaic draws from: entry [j] of
    the samples predicted [-1] exists exactly when [j] is below that
    number. *)
Theorem anomalies_counted X (predictions : list Z) (j : nat) :
  length predictions = length X →
  is_Some (members X predictions (-1) !! j) ↔
  (j < number_of_anomalies predictions)%nat.
Proof.
  intros Hlen. rewrite lookup_lt_is_Some.
  enough (length (members X predictions (-1))
          = number_of_anomalies predictions) as -> by done.
  unfold members, number_of_anomalies.
  assert (Hmask : length ((λ x : Z, bool_decide (x = -1)) <$> predictions)
                  = length X) by (by rewrite length_fmap).
  revert Hmask. generalize ((λ x : Z, bool_decide (x = -1)) <$> predictions).
  clear Hlen. induction X as [|x X IH]; intros [|b mask] Hmask; try done.
  simpl in *. destruct b; simpl; rewrite IH by lia; done.
Qed.

End MosaicFacts.

(** * The data cell and the first call *)

Section PipelineFacts.

Context {Row Label : Type} `{EqDecision Label}.

(** X11. The linear-classifier notebook: the test set is what follows
    the first 60000 samples, and [show_failures(pred_lr)] is called on the
    predictions for its rows.  When data and targets have the same
    length and the classifier returns one prediction for each row, the
    call ends normally and draws at most 10 digits; digit [i] of the test
    set is sample [60000 + i] of the data, shown with its own target and
    a prediction that differs from it; and with at most 60000 samples
    there is nothing to show. *)
Theorem classifier_failures_shown np (predict : list Row → list Label)
    (X : list Row) (y : list Label) :
  length X = length y →
  length (predict (X_test X)) = length (X_test X) →
  ∃ w,
    show_failures_of_classifier np predict X y = (w, Ret tt) ∧
    Z.of_nat (length (gallery (calls w))) ≤ 10 ∧
    (∀ i p g, (i, p, g) ∈ gallery (calls w) →
       predict (X_test X) !! i = Some p ∧
       y !! (train_len + i)%nat = Some g ∧
       is_Some (X !! (train_len + i)%nat) ∧
       p ≠ g) ∧
    ((length X ≤ train_len)%nat → gallery (calls w) = []).
Proof.
  intros Hlen Hpred. unfold show_failures_of_classifier.
  assert (Haligned : length (predict (X_test X)) = length (y_test_of y)).
  { rewrite Hpred. unfold X_test, y_test_of. rewrite !length_drop. lia. }
  assert (Hrows : length (X_test X) = length (y_test_of y)).
  { unfold X_test, y_test_of. rewrite !length_drop. lia. }
  rewrite Hrows.
  pose proof (show_failures_well_formed np (length (y_test_of y))
                (predict (X_test X)) (y_test_of y) None None 10)
    as (k & Hall & _ & Hbound).
  rewrite show_failures_aligned in * by done.
  eexists. split; [done|]. cbn [fst calls app] in *. split_and!.
  - lia.
  - intros i p g Hin. rewrite Forall_forall in Hall.
    destruct (Hall _ Hin) as (Hp & Hg & Hmatch & _).
    unfold index_of in Hp, Hg. cbn [fst snd] in Hp, Hg.
    unfold y_test_of in Hg. rewrite lookup_drop in Hg.
    split_and!; [done|done| |].
    + apply lookup_lt_is_Some. apply lookup_lt_Some in Hg. lia.
    + unfold matching in Hmatch.
      apply andb_prop in Hmatch as [[Hne%bool_decide_eq_true _]%andb_prop _].
      done.
  - intros Hshort.
    assert (Hnil : y_test_of y = []) by (apply drop_ge; lia).
    assert (Hnil' : predict (X_test X) = []).
    { apply length_zero_iff_nil. rewrite Haligned, Hnil. done. }
    rewrite Hnil, Hnil'. done.
Qed.

End PipelineFacts.

(** * Concrete runs of the further properties *)

(** X7 on the model: one prediction 3 against the labels 7, 3, 5. *)
Example single_prediction_example np :
  show_failures np [3] None None 10 (test_set [7; 3; 5])
  = (World 3 [7; 3; 5]
       [PrintHeader 10; Figure 10 1;
        Subplot 1 10 1; AxisOff; Imshow 0; Title 3 7;
        Subplot 1 10 2; AxisOff; Imshow 2],
     Raise IndexError).
Proof. by destruct np. Qed.

(** X2 at the capped example. *)
Lemma aligned_call_trace_witness :
  length [1; 1; 1] = length [0; 0; 0] ∧ 0 ≤ 2 ∧
  show_failures Strict [0; 0; 0] None None 2 (World (length [1; 1; 1]) [1; 1; 1] [])
  = (World (length [1; 1; 1]) [1; 1; 1]
       ([] ++ PrintHeader 2 :: Figure 2 1
           :: render 2 0 (reference [1; 1; 1] [0; 0; 0] None None 2)), Ret tt) ∧
  length (PrintHeader 2 :: Figure 2 1
            :: render 2 0 (reference [1; 1; 1] [0; 0; 0] None None 2))
  = (2 + 4 * length (reference [1; 1; 1]%Z [0; 0; 0]%Z None None 2%Z))%nat.
Proof.
  split; [reflexivity|]. split; [discriminate|].
  apply (aligned_call_trace Strict [1; 1; 1] [0; 0; 0] None None 2 []);
    [reflexivity|discriminate].
Defined.

(** X3 at the first example of the specification. *)
Lemma no_earlier_failure_skipped_witness :
  length [0; 1; 1; 2; 0] = length [0; 2; 1; 2; 1] ∧ 0 ≤ 10 ∧
  ∃ r, findFailures Strict [0; 1; 1; 2; 0] [0; 2; 1; 2; 1] None None 10 = Ret r ∧
       ∀ i p g j p' g',
         (i, p, g) ∈ r → (j < i)%nat →
         [0; 2; 1; 2; 1] !! j = Some p' → [0; 1; 1; 2; 0] !! j = Some g' →
         matching None None (j, p', g') = true →
         (j, p', g') ∈ r.
Proof.
  split; [reflexivity|]. split; [discriminate|].
  apply (no_earlier_failure_skipped Strict
           [0; 1; 1; 2; 0] [0; 2; 1; 2; 1] None None 10);
    [reflexivity|discriminate].
Defined.

(** X4 at the caps 1 and 10. *)
Lemma larger_cap_extends_result_witness :
  length [0; 1; 1; 2; 0] = length [0; 2; 1; 2; 1] ∧ 0 ≤ 1 ∧ 1 ≤ 10 ∧
  ∃ r r', findFailures Strict [0; 1; 1; 2; 0] [0; 2; 1; 2; 1] None None 1 = Ret r ∧
          findFailures Strict [0; 1; 1; 2; 0] [0; 2; 1; 2; 1] None None 10 = Ret r' ∧
          r `prefix_of` r'.
Proof.
  split; [reflexivity|]. split; [discriminate|]. split; [discriminate|].
  apply (larger_cap_extends_result Strict
           [0; 1; 1; 2; 0] [0; 2; 1; 2; 1] None None 1 10);
    [reflexivity|discriminate|discriminate].
Defined.

(** X5 with the true class 1 and a cap of 5 for five samples. *)
Lemma filters_commute_with_scan_witness :
  length [0; 1; 1; 2; 0] = length [0; 2; 1; 2; 1] ∧
  Z.of_nat (length [0; 1; 1; 2; 0]) ≤ 5 ∧
  ∃ everything,
    findFailures Strict [0; 1; 1; 2; 0] [0; 2; 1; 2; 1] None None 5
    = Ret everything ∧
    findFailures Strict [0; 1; 1; 2; 0] [0; 2; 1; 2; 1] (Some 1) None 5
    = Ret (List.filter (passes_filters (Some 1) None) everything).
Proof.
  split; [reflexivity|]. split; [discriminate|].
  apply (filters_commute_with_scan Strict
           [0; 1; 1; 2; 0] [0; 2; 1; 2; 1] (Some 1) None 5);
    [reflexivity|discriminate].
Defined.

(** X6: one more sample after a test set that fills the cap. *)
Lemma scan_stops_at_cap_witness :
  length [1; 1; 1] = length [0; 0; 0] ∧ length [2] = length [3] ∧ 0 ≤ 2 ∧
  ∃ r r', findFailures Strict [1; 1; 1] [0; 0; 0] None None 2 = Ret r ∧
          findFailures Strict ([1; 1; 1] ++ [2]) ([0; 0; 0] ++ [3]) None None 2
          = Ret r' ∧
          r `prefix_of` r' ∧
          (Z.of_nat (length r) = 2 → r' = r).
Proof.
  split; [reflexivity|]. split; [reflexivity|]. split; [discriminate|].
  apply (scan_stops_at_cap Strict [1; 1; 1] [0; 0; 0] [2] [3] None None 2);
    [reflexivity|reflexivity|discriminate].
Defined.

(** X7: the prediction 3 against the labels 7, 3, 5. *)
Lemma single_prediction_broadcast_witness :
  [3; 5] ≠ [] ∧ 2 ≤ 10 ∧
  (show_failures Strict [3] None None 10 (test_set (7 :: [3; 5]))).2
  = (if existsb (offending 3 None) [3; 5] then Raise IndexError else Ret tt) ∧
  show_failures Strict [3] None None 10 (test_set (7 :: [3; 5]))
  = (after (test_set (7 :: [3; 5]))
       [PrintHeader 10; Figure 10 1;
        Subplot 1 10 1; AxisOff; Imshow 0; Title 3 7;
        Subplot 1 10 2; AxisOff; Imshow 2],
     Raise IndexError).
Proof.
  assert (Hmore : [3; 5] ≠ []) by discriminate.
  assert (Hcap : 2 ≤ 10) by discriminate.
  split; [exact Hmore|]. split; [exact Hcap|].
  exact (single_prediction_broadcast Strict 3 7 [3; 5] None None 10
           Hmore Hcap).
Defined.

(** X8: two samples, one in each of two clusters. *)
Lemma cluster_mosaic_pixels_witness :
  length [0; 1] = length [repeat 5 784; repeat 6 784] ∧
  Forall (λ v : list Z, length v = 784%nat) [repeat 5 784; repeat 6 784] ∧
  ∃ img,
    cluster_mosaic 0 2 [repeat 5 784; repeat 6 784] [0; 1] = Ret img ∧
    height img = (28 * 2)%nat ∧
    width img = (28 * n_img_per_row)%nat ∧
    ∀ r c, (r < 28 * 2)%nat → (c < 28 * n_img_per_row)%nat →
      pixel img r c
      = tiled 0 n_img_per_row
          (λ i, members [repeat 5 784; repeat 6 784] [0; 1] (Z.of_nat i)) r c.
Proof.
  assert (H784 : Forall (λ v : list Z, length v = 784%nat)
                   [repeat 5 784; repeat 6 784]).
  { repeat constructor; apply repeat_length. }
  split; [reflexivity|]. split; [exact H784|].
  apply (cluster_mosaic_pixels 0 2 [repeat 5 784; repeat 6 784] [0; 1]);
    [reflexivity|exact H784].
Defined.

(** X9: one anomaly and one normal sample. *)
Lemma anomaly_mosaic_pixels_witness :
  length [-1; 1] = length [repeat 5 784; repeat 6 784] ∧
  Forall (λ v : list Z, length v = 784%nat) [repeat 5 784; repeat 6 784] ∧
  ∃ img,
    anomaly_mosaic 0 [repeat 5 784; repeat 6 784] [-1; 1] = Ret img ∧
    height img = 56%nat ∧ width img = (28 * n_img_per_row)%nat ∧
    ∀ r c, (r < 56)%nat → (c < 28 * n_img_per_row)%nat →
      pixel img r c
      = match (if decide (r < 28)%nat
               then members [repeat 5 784; repeat 6 784] [-1; 1] (-1)
                    !! (c / 28)%nat
               else members [repeat 5 784; repeat 6 784] [-1; 1] 1
                    !! (n_img_per_row + c / 28)%nat)
        with
        | Some v => default 0 (v !! (28 * (r mod 28) + c mod 28)%nat)
        | None => 0
        end.
Proof.
  assert (H784 : Forall (λ v : list Z, length v = 784%nat)
                   [repeat 5 784; repeat 6 784]).
  { repeat constructor; apply repeat_length. }
  split; [reflexivity|]. split; [exact H784|].
  apply (anomaly_mosaic_pixels 0 [repeat 5 784; repeat 6 784] [-1; 1]);
    [reflexivity|exact H784].
Defined.

(** X10: one anomaly among two samples. *)
Lemma anomalies_counted_witness :
  length [-1; 1] = length [[5]; [6]] ∧
  (is_Some (members [[5]; [6]] [-1; 1] (-1) !! 0%nat) ↔
   (0 < number_of_anomalies [-1; 1]%Z)%nat).
Proof.
  split; [reflexivity|].
  apply (anomalies_counted [[5]; [6]] [-1; 1] 0). reflexivity.
Defined.

(** X11: 60002 samples and a classifier that answers with the row
    itself. *)
Lemma classifier_failures_shown_witness :
  length (repeat 0 train_len ++ [1; 2]) = length (repeat 0 train_len ++ [1; 5]) ∧
  length (id (X_test (repeat 0 train_len ++ [1; 2])))
  = length (X_test (repeat 0 train_len ++ [1; 2])) ∧
  ∃ w,
    show_failures_of_classifier Strict id
      (repeat 0 train_len ++ [1; 2]) (repeat 0 train_len ++ [1; 5])
    = (w, Ret tt) ∧
    Z.of_nat (length (gallery (calls w))) ≤ 10 ∧
    (∀ i p g, (i, p, g) ∈ gallery (calls w) →
       id (X_test (repeat 0 train_len ++ [1; 2])) !! i = Some p ∧
       (repeat 0 train_len ++ [1; 5]) !! (train_len + i)%nat = Some g ∧
       is_Some ((repeat 0 train_len ++ [1; 2]) !! (train_len + i)%nat) ∧
       p ≠ g) ∧
    ((length (repeat 0 train_len ++ [1; 2]) ≤ train_len)%nat →
     gallery (calls w) = []).
Proof.
  assert (Hlen : length (repeat 0 train_len ++ [1; 2])
                 = length (repeat 0 train_len ++ [1; 5])).
  { rewrite !length_app, !repeat_length. reflexivity. }
  split; [exact Hlen|]. split; [reflexivity|].
  apply (classifier_failures_shown Strict id
           (repeat 0 train_len ++ [1; 2]) (repeat 0 train_len ++ [1; 5]));
    [exact Hlen|reflexivity].
Defined.
